(** * ASPIn integration service: payment orchestration, verified model

    A shallow embedding of the TypeScript services

      - [services/idempotency.service.ts]   (the Idempotency Ledger),
      - [services/aspin-auth.service.ts]    (the Credential Cache),
      - [services/aspin-payment.service.ts] (the Notifier),
      - [services/payment-gateway.service.ts] (the Channel Adapter),
      - [services/payment.service.ts]       (the Orchestrator and the
        Gateway Router),
      - [middleware/error.ts]               (error classification),

    followed by the properties proved about them.

    Conventions of the embedding.

      - A reading of the clock, [new Date()] or [Date.now()], is the number
        of milliseconds since the epoch, a [Z]; each one is a separate
        reading supplied by the environment of the call.  A [Date] the
        code computes with [setSeconds] is a [JsDate]: a time value or the
        Invalid Date, as the platform's local-time arithmetic gives it.
      - A JavaScript [number] holding an integer is a [Z]; the schemas
        refuse what lies beyond the safe integers.
      - A thrown [Error] is [Throw message]; an [async] function is run to
        completion (one call at a time), except for the credential cache,
        whose [await] point is made explicit in [getAccessToken_start] and
        [authenticate_resume].
      - Everything the process does to the outside world is appended to
        the [events] trace of the state. *)

From Stdlib Require Import ZArith QArith String Ascii List DecimalString.
From stdpp Require Import gmap strings list fin_maps.

Open Scope string_scope.
Open Scope Z_scope.

(** ** Results and the service monad *)

Inductive Result (A : Type) : Type :=
  | Ok (value : A)
  | Throw (message : string).
Arguments Ok {A} value.
Arguments Throw {A} message.

Definition is_ok {A} (r : Result A) : bool :=
  match r with Ok _ => true | Throw _ => false end.

(** ** types/payment.types.ts *)

Inductive Currency := KES | UGX | RWF | ZMW | ZAR.

Inductive PaymentGateway := MPESA | AIRTEL.

(** [PaymentTransaction.status] *)
Inductive Status := pending | processing | completed | failed.

(** [PaymentHubWebhookSchema.status]: [z.enum(["completed","failed","pending"])] *)
Inductive WebhookStatus := wh_completed | wh_failed | wh_pending.

(** The webhook status is assigned to the transaction status as it is. *)
Definition status_of_webhook (ws : WebhookStatus) : Status :=
  match ws with
  | wh_completed => completed
  | wh_failed => failed
  | wh_pending => pending
  end.

Inductive AspinStatus := Succeeded | Failed.

#[global] Instance Currency_eq_dec : EqDecision Currency.
Proof. solve_decision. Defined.
#[global] Instance PaymentGateway_eq_dec : EqDecision PaymentGateway.
Proof. solve_decision. Defined.
#[global] Instance Status_eq_dec : EqDecision Status.
Proof. solve_decision. Defined.
#[global] Instance WebhookStatus_eq_dec : EqDecision WebhookStatus.
Proof. solve_decision. Defined.

(** The opaque key/value bag of a request. *)
Definition Metadata : Type := list (string * string).

Record InitiatePaymentRequest := {
  req_policy_guid : string;
  req_amount : Z;
  req_currency : Currency;
  req_msisdn : string;
  req_customer_id : option string;
  req_external_reference : option string;
  req_description : option string;
  req_metadata : option Metadata;
}.

Record AspinPaymentUpdate := {
  policy_guid : string;
  amount_in_cents : Z;
  mno_reference : string;
  status : AspinStatus;
  channel : string;
  effected_at : string;
}.

Record PaymentHubWebhook := {
  wh_transaction_id : string;
  wh_status : WebhookStatus;
  wh_amount : Z;
  wh_currency : Currency;
  wh_timestamp : string;
  wh_signature : option string;
  wh_policy_guid : option string;
  wh_mno_reference : option string;
}.

(** [expires_in] is [z.number()]; it is taken here as a whole number of
    seconds, which is what ASPIn sends. *)
Record AspinTokenResponse := {
  access_token : string;
  token_type : string;
  refresh_token : string;
  expires_in : Z;
  scope : string;
  user_client_name : string;
  user_guid : string;
  user_fullname : string;
  user_partners : list string;
}.

Record PaymentTransaction := {
  transactionId : string;
  policyGuid : string;
  amount : Z;
  currency : Currency;
  msisdn : string;
  tx_status : Status;
  gateway : PaymentGateway;
  gatewayReference : option string;
  mnoReference : option string;
  createdAt : Z;
  updatedAt : Z;
  metadata : option Metadata;
}.

(** What [handleWebhook] stores as the [response] of an idempotency
    record: [{ processed: true, timestamp, status }].  It is a JavaScript
    object, hence truthy whatever its fields hold. *)
Record WebhookResponse := {
  processed : bool;
  resp_timestamp : Z;
  resp_status : WebhookStatus;
}.

(** A [Date] object: its time value in milliseconds, or the Invalid Date
    that [setSeconds] leaves behind when the result is out of range or
    not a number. *)
Inductive JsDate :=
  | ValidDate (ms : Z)
  | InvalidDate.

(** [a < b] on two dates (and [b > a]): the time values are compared, and
    the comparison is false as soon as one side is the Invalid Date. *)
Definition date_ltb (a b : JsDate) : bool :=
  match a, b with
  | ValidDate x, ValidDate y => x <? y
  | _, _ => false
  end.

Record IdempotencyRecord := {
  key : string;
  response : WebhookResponse;
  expiresAt : JsDate;
}.

(** ** The outside world *)

(** What leaves the process, in the order it happens. *)
Inductive Event :=
  | EvNotify (payload : AspinPaymentUpdate)
      (** [notifyPaymentSuccess] / [notifyPaymentFailure] was called *)
  | EvAuthPost
      (** [POST /oauth/token] was issued *)
  | EvPaymentPost (payload : AspinPaymentUpdate) (accepted : bool)
      (** [POST /api/payments] was issued, and whether it was accepted *)
  | EvLedgerSet (k : string)
      (** [idempotencyService.set(k, ...)] ran *).

(** Library and platform functions the services call but do not define:
    the zod string checks [.uuid()] and [.date()] and the message of the
    [ZodError] a refused value is thrown with, the local-time accessors
    of [Date], its [setSeconds], and the value of
    [config.idempotency.ttl].

    [addSeconds now n] is the date [d] after
    [d = new Date(); d.setSeconds(d.getSeconds() + n)] with [d] read at
    [now]: the seconds are added to the local wall-clock time, so the
    result is [n] seconds after [now] only when the offset of the local
    zone does not change in between, and it is the Invalid Date when the
    result leaves the range of dates. *)
Record Runtime := {
  is_uuid : string → bool;
  is_date : string → bool;
  payment_update_issues : AspinPaymentUpdate → string;
  request_issues : InitiatePaymentRequest → string;
  getFullYear : Z → Z;
  getMonth : Z → Z;
  getDate : Z → Z;
  addSeconds : Z → Z → JsDate;
  ttl : Z;
}.

(** [Number.MAX_SAFE_INTEGER], the bound of zod's [.int()]. *)
Definition MAX_SAFE_INTEGER : Z := 9007199254740991.

(** [z.number().positive().int()] on an integer. *)
Definition positive_int (n : Z) : bool := (0 <? n) && (n <=? MAX_SAFE_INTEGER).

(** [parseInt(process.env.IDEMPOTENCY_TTL || "86400", 10)], the variable
    read as a number when it is set. *)
Definition config_idempotency_ttl (IDEMPOTENCY_TTL : option Z) : Z :=
  default 86400 IDEMPOTENCY_TTL.

(** ** The state of the process: the singletons of the four services *)

Record State := {
  transactions : gmap string PaymentTransaction;  (* PaymentService *)
  store : gmap string IdempotencyRecord;          (* IdempotencyService *)
  accessToken : option string;                    (* AspinAuthService *)
  tokenExpiry : option JsDate;                    (* AspinAuthService *)
  events : list Event;
}.

Definition initial_state : State :=
  {| transactions := ∅; store := ∅; accessToken := None;
     tokenExpiry := None; events := [] |}.

Definition set_transactions (m : gmap string PaymentTransaction) (s : State) : State :=
  {| transactions := m; store := store s; accessToken := accessToken s;
     tokenExpiry := tokenExpiry s; events := events s |}.

Definition set_store (m : gmap string IdempotencyRecord) (s : State) : State :=
  {| transactions := transactions s; store := m; accessToken := accessToken s;
     tokenExpiry := tokenExpiry s; events := events s |}.

Definition set_credential (tok : option string) (exp : option JsDate) (s : State) : State :=
  {| transactions := transactions s; store := store s; accessToken := tok;
     tokenExpiry := exp; events := events s |}.

Definition emit (e : Event) (s : State) : State :=
  {| transactions := transactions s; store := store s; accessToken := accessToken s;
     tokenExpiry := tokenExpiry s; events := events s ++ [e] |}.

(** A service call: it reads and writes the state and returns or throws. *)
Definition M (A : Type) : Type := State → Result A * State.

Definition ret {A} (a : A) : M A := λ s, (Ok a, s).
Definition throw {A} (message : string) : M A := λ s, (Throw message, s).
Definition bind {A B} (m : M A) (k : A → M B) : M B :=
  λ s, match m s with
       | (Ok a, s') => k a s'
       | (Throw e, s') => (Throw e, s')
       end.
(** [try { m } catch (error) { throw new Error(message) }] *)
Definition rethrow_as {A} (message : string) (m : M A) : M A :=
  λ s, match m s with
       | (Ok a, s') => (Ok a, s')
       | (Throw _, s') => (Throw message, s')
       end.
Definition get_state : M State := λ s, (Ok s, s).
Definition modify (f : State → State) : M unit := λ s, (Ok tt, f s).

Declare Scope svc_scope.
Delimit Scope svc_scope with svc.
Notation "x <~ m ;; k" := (bind m (λ x, k))
  (at level 100, m at next level, right associativity) : svc_scope.
Notation "m ;;; k" := (bind m (λ _, k))
  (at level 100, right associativity) : svc_scope.
Open Scope svc_scope.

(** ** JavaScript string helpers used by the services *)

(** Truthiness of a string: every string but the empty one. *)
Definition truthy (s : string) : bool :=
  match s with EmptyString => false | String _ _ => true end.

(** [a || b] on an optional string [a] *)
Definition or_else (a : option string) (b : string) : string :=
  match a with
  | Some x => if truthy x then x else b
  | None => b
  end.

(** [s.includes(sub)] *)
Definition includes (sub s : string) : bool :=
  match String.index 0 sub s with Some _ => true | None => false end.

(** [s.startsWith(p)] *)
Definition startsWith (p s : string) : bool := String.prefix p s.

(** [s.replace(/-/g, EMPTY)] *)
Fixpoint remove_dashes (s : string) : string :=
  match s with
  | EmptyString => EmptyString
  | String c rest =>
      if Ascii.eqb c "-"%char then remove_dashes rest
      else String c (remove_dashes rest)
  end.

(** [String(n)] for an integer [n] *)
Definition string_of_Z (n : Z) : string := NilZero.string_of_int (Z.to_int n).

(** [s.padStart(2, "0")] *)
Definition padStart2 (s : string) : string :=
  match String.length s with
  | 0%nat => "00" ++ s
  | 1%nat => "0" ++ s
  | _ => s
  end.

Definition is_digit (c : ascii) : bool :=
  (48 <=? Ascii.nat_of_ascii c)%nat && (Ascii.nat_of_ascii c <=? 57)%nat.

Definition char_between (lo hi c : ascii) : bool :=
  (Ascii.nat_of_ascii lo <=? Ascii.nat_of_ascii c)%nat
  && (Ascii.nat_of_ascii c <=? Ascii.nat_of_ascii hi)%nat.

(** The request schema's [/^00[1-9]\d{6,14}$/] on [msisdn]. *)
Definition valid_msisdn (s : string) : bool :=
  match s with
  | String "0" (String "0" (String c rest)) =>
      char_between "1" "9" c
      && forallb is_digit (list_ascii_of_string rest)
      && (6 <=? String.length rest)%nat && (String.length rest <=? 14)%nat
  | _ => false
  end.

(** ** services/idempotency.service.ts *)

Section Services.

Variable rt : Runtime.

(** [IdempotencyService.get]: the stored response, unless the record is
    missing or expired; an expired record is deleted on the way. *)
Definition idempotency_get (k : string) (now : Z) : M (option WebhookResponse) :=
  s <~ get_state ;;
  match store s !! k with
  | None => ret None
  | Some record =>
      if date_ltb (expiresAt record) (ValidDate now) then
        modify (set_store (delete k (store s))) ;;;
        ret None
      else ret (Some (response record))
  end.

(** [IdempotencyService.set]: [expiresAt] is [new Date()] after
    [setSeconds(getSeconds() + ttl)]. *)
Definition idempotency_set (k : string) (resp : WebhookResponse) (now : Z) : M unit :=
  let expires := addSeconds rt now (ttl rt) in
  s <~ get_state ;;
  modify (set_store (<[k := {| key := k; response := resp; expiresAt := expires |}]> (store s))) ;;;
  modify (emit (EvLedgerSet k)).

(** [IdempotencyService.exists] *)
Definition idempotency_exists (k : string) (now : Z) : M bool :=
  s <~ get_state ;;
  match store s !! k with
  | None => ret false
  | Some record =>
      if date_ltb (expiresAt record) (ValidDate now) then
        modify (set_store (delete k (store s))) ;;;
        ret false
      else ret true
  end.

(** [IdempotencyService.cleanup], run by the hourly timer. *)
Definition idempotency_cleanup (now : Z) : M unit :=
  s <~ get_state ;;
  modify (set_store (filter (λ kr, date_ltb (expiresAt kr.2) (ValidDate now) = false)
                       (store s))).

(** [IdempotencyService.size] *)
Definition idempotency_size : M nat :=
  s <~ get_state ;; ret (size (store s)).

(** ** services/aspin-auth.service.ts *)

(** The condition of [getAccessToken]:
    [this.accessToken && this.tokenExpiry && this.tokenExpiry > new Date()] *)
Definition cached_token (now : Z) (s : State) : option string :=
  match accessToken s, tokenExpiry s with
  | Some tok, Some expiry =>
      if truthy tok && date_ltb (ValidDate now) expiry then Some tok else None
  | _, _ => None
  end.

(** A call of [getAccessToken] either returns at once or is suspended at
    the [await] of [authenticate], its request on the wire. *)
Inductive TokenCall :=
  | Returned (token : string)
  | AwaitingAuth.

(** [getAccessToken] up to the first [await]: the cache test and, on a
    miss, the start of [authenticate], which issues [POST /oauth/token]. *)
Definition getAccessToken_start (now : Z) : M TokenCall :=
  s <~ get_state ;;
  match cached_token now s with
  | Some tok => ret (Returned tok)
  | None => modify (emit EvAuthPost) ;;; ret AwaitingAuth
  end.

(** [authenticate] from the [await] on.  [reply] is the body of the
    response once it passed [AspinTokenResponseSchema.parse]; [None]
    stands for a failed request or a body the schema rejects.  The expiry
    is [new Date()] after [setSeconds(getSeconds() + expires_in - 60)]. *)
Definition authenticate_resume (reply : option AspinTokenResponse) (now : Z) : M string :=
  match reply with
  | None => throw "Failed to authenticate with ASPIn"
  | Some tokenData =>
      modify (set_credential (Some (access_token tokenData))
                (Some (addSeconds rt now (expires_in tokenData - 60)))) ;;;
      ret (access_token tokenData)
  end.

(** [getAccessToken] run to completion by a single caller. *)
Definition getAccessToken (at_token : Z) (reply : option AspinTokenResponse)
    (at_auth : Z) : M string :=
  call <~ getAccessToken_start at_token ;;
  match call with
  | Returned tok => ret tok
  | AwaitingAuth => authenticate_resume reply at_auth
  end.

(** [clearToken] *)
Definition clearToken : M unit := modify (set_credential None None).

(** ** services/aspin-payment.service.ts *)

(** The readings and replies one Notifier call consumes. *)
Record NotifyEnv := {
  at_token : Z;                              (* [new Date()] in [getAccessToken] *)
  auth_reply : option AspinTokenResponse;    (* reply to [POST /oauth/token] *)
  at_auth : Z;                               (* [new Date()] in [authenticate] *)
  post_accepted : bool;                      (* [POST /api/payments] resolved *)
}.

(** [AspinPaymentUpdateSchema.parse]: the uuid, the positive safe
    integer and the date; the two literals hold by construction of the
    payloads.  The [ZodError] it throws carries zod's list of issues as
    its message. *)
Definition AspinPaymentUpdateSchema_ok (p : AspinPaymentUpdate) : bool :=
  is_uuid rt (policy_guid p) && positive_int (amount_in_cents p)
  && is_date rt (effected_at p).

Definition AspinPaymentUpdateSchema_parse (p : AspinPaymentUpdate) : M unit :=
  if AspinPaymentUpdateSchema_ok p then ret tt
  else throw (payment_update_issues rt p).

(** [sendPaymentUpdate]: whatever fails inside is replaced by one error. *)
Definition sendPaymentUpdate (payload : AspinPaymentUpdate) (env : NotifyEnv) : M unit :=
  rethrow_as "Failed to notify ASPIn of payment status"
    (_token <~ getAccessToken (at_token env) (auth_reply env) (at_auth env) ;;
     modify (emit (EvPaymentPost payload (post_accepted env))) ;;;
     if post_accepted env then ret tt else throw "AxiosError").

Definition notifyPaymentSuccess (policyGuid' : string) (amount' : Z)
    (mnoReference' effectedAt : string) (env : NotifyEnv) : M unit :=
  let payload :=
    {| policy_guid := policyGuid';
       amount_in_cents := amount' * 100; (* Convert to cents *)
       mno_reference := mnoReference';
       status := Succeeded;
       channel := "ApiClient";
       effected_at := effectedAt |} in
  modify (emit (EvNotify payload)) ;;;
  AspinPaymentUpdateSchema_parse payload ;;;
  sendPaymentUpdate payload env.

Definition notifyPaymentFailure (policyGuid' : string) (amount' : Z)
    (mnoReference' effectedAt : string) (env : NotifyEnv) : M unit :=
  let payload :=
    {| policy_guid := policyGuid';
       amount_in_cents := amount' * 100;
       mno_reference := mnoReference';
       status := Failed;
       channel := "ApiClient";
       effected_at := effectedAt |} in
  modify (emit (EvNotify payload)) ;;;
  AspinPaymentUpdateSchema_parse payload ;;;
  sendPaymentUpdate payload env.

(** ** services/payment-gateway.service.ts *)

Record InitiatePaymentParams := {
  par_amount : Z;
  par_currency : Currency;
  par_msisdn : string;
  par_reference : string;
  par_description : string;
}.

Record InitiatePaymentResult := {
  res_transactionId : string;
  res_gatewayReference : string;
  res_status : Status;
}.

(** The readings one [initiatePayment] consumes. *)
Record InitiateEnv := {
  uuid_tx : string;       (* [uuidv4()] of the transaction id *)
  at_created : Z;         (* [createdAt: new Date()] *)
  at_created_upd : Z;     (* [updatedAt: new Date()] *)
  rand : Q;               (* [Math.random()] *)
  uuid_gw : string;       (* [uuidv4()] of the gateway *)
  date_now : Z;           (* [Date.now()] of the gateway *)
  at_updated : Z;         (* [transaction.updatedAt = new Date()] *)
}.

(** The double nearest to 0.05, the literal of [rand < 0.05]. *)
Definition timeout_threshold : Q := 3602879701896397 # 72057594037927936.

(** [simulateNetworkConditions]: below the threshold the promise is
    rejected; the two delays do not show in the state. *)
Definition simulateNetworkConditions (r : Q) : M unit :=
  if negb (Qle_bool timeout_threshold r) then throw "PaymentHub timeout"
  else ret tt.

(** [uuidv4().replace(/-/g, EMPTY).substring(0, 12)] *)
Definition short_id (uuid : string) : string :=
  String.substring 0 12 (remove_dashes uuid).

Definition initiateMpesaPayment (params : InitiatePaymentParams) (env : InitiateEnv)
    : M InitiatePaymentResult :=
  simulateNetworkConditions (rand env) ;;;
  ret {| res_transactionId := "MPESA_" ++ short_id (uuid_gw env);
         res_gatewayReference := "WSR_" ++ string_of_Z (date_now env);
         res_status := pending |}.

Definition initiateAirtelPayment (params : InitiatePaymentParams) (env : InitiateEnv)
    : M InitiatePaymentResult :=
  simulateNetworkConditions (rand env) ;;;
  ret {| res_transactionId := "AIRTEL_" ++ short_id (uuid_gw env);
         res_gatewayReference := "AIR_" ++ string_of_Z (date_now env);
         res_status := pending |}.

(** [PaymentGatewayService.initiatePayment]; the [default] branch of the
    [switch] has no value of [PaymentGateway] left to reach it. *)
Definition gateway_initiatePayment (g : PaymentGateway) (params : InitiatePaymentParams)
    (env : InitiateEnv) : M InitiatePaymentResult :=
  match g with
  | MPESA => initiateMpesaPayment params env
  | AIRTEL => initiateAirtelPayment params env
  end.

(** ** services/payment.service.ts *)

(** [/^00254(7[0-2]|79)/] *)
Definition mpesa_prefix (m : string) : bool :=
  startsWith "00254" m
  && match String.get 5 m, String.get 6 m with
     | Some c5, Some c6 =>
         Ascii.eqb c5 "7" && (char_between "0" "2" c6 || Ascii.eqb c6 "9")
     | _, _ => false
     end.

(** [/^00254(7[3-5]|77)/] *)
Definition airtel_prefix (m : string) : bool :=
  startsWith "00254" m
  && match String.get 5 m, String.get 6 m with
     | Some c5, Some c6 =>
         Ascii.eqb c5 "7" && (char_between "3" "5" c6 || Ascii.eqb c6 "7")
     | _, _ => false
     end.

(** [PaymentService.determineGateway] *)
Definition determineGateway (m : string) : PaymentGateway :=
  if mpesa_prefix m then MPESA
  else if airtel_prefix m then AIRTEL
  else if startsWith "00254" m then MPESA else AIRTEL.

Definition with_gateway_result (t : PaymentTransaction) (r : InitiatePaymentResult)
    (now : Z) : PaymentTransaction :=
  {| transactionId := transactionId t; policyGuid := policyGuid t;
     amount := amount t; currency := currency t; msisdn := msisdn t;
     tx_status := res_status r;
     gateway := gateway t;
     gatewayReference := Some (res_gatewayReference r);
     mnoReference := mnoReference t;
     createdAt := createdAt t;
     updatedAt := now;
     metadata := metadata t |}.

Definition with_status (t : PaymentTransaction) (st : Status) (now : Z)
    : PaymentTransaction :=
  {| transactionId := transactionId t; policyGuid := policyGuid t;
     amount := amount t; currency := currency t; msisdn := msisdn t;
     tx_status := st;
     gateway := gateway t;
     gatewayReference := gatewayReference t;
     mnoReference := mnoReference t;
     createdAt := createdAt t;
     updatedAt := now;
     metadata := metadata t |}.

(** [this.transactions.set(id, t)]; also the write through the reference
    the map holds when the service assigns to a field of the record. *)
Definition transactions_set (id : string) (t : PaymentTransaction) : M unit :=
  s <~ get_state ;;
  modify (set_transactions (<[id := t]> (transactions s))).

(** The id [initiatePayment] gives the record it creates. *)
Definition new_transaction_id (env : InitiateEnv) : string :=
  "TXN_" ++ short_id (uuid_tx env).

(** [PaymentService.initiatePayment]; the [catch] logs and throws the
    error on unchanged. *)
Definition initiatePayment (request : InitiatePaymentRequest) (env : InitiateEnv)
    : M (string * Status) :=
  if bool_decide (req_currency request = KES) && negb (req_amount request =? 5000) then
    throw "Invalid payment amount. KES 5,000 required for this policy"
  else
    let transactionId' := new_transaction_id env in
    let gateway' := determineGateway (req_msisdn request) in
    let transaction :=
      {| transactionId := transactionId';
         policyGuid := req_policy_guid request;
         amount := req_amount request;
         currency := req_currency request;
         msisdn := req_msisdn request;
         tx_status := pending;
         gateway := gateway';
         gatewayReference := None;
         mnoReference := None;
         createdAt := at_created env;
         updatedAt := at_created_upd env;
         metadata := req_metadata request |} in
    transactions_set transactionId' transaction ;;;
    gatewayResult <~ gateway_initiatePayment gateway'
        {| par_amount := req_amount request;
           par_currency := req_currency request;
           par_msisdn := req_msisdn request;
           par_reference := transactionId';
           par_description :=
             or_else (req_description request)
                     ("Policy payment: " ++ req_policy_guid request) |} env ;;
    transactions_set transactionId'
      (with_gateway_result transaction gatewayResult (at_updated env)) ;;;
    ret (transactionId', res_status gatewayResult).

(** The readings and replies one [handleWebhook] consumes. *)
Record WebhookEnv := {
  at_check : Z;        (* [new Date()] in [idempotencyService.get] *)
  at_update : Z;       (* [transaction.updatedAt = new Date()] *)
  at_effect : Z;       (* [const now = new Date()] *)
  notify_env : NotifyEnv;
  at_store : Z;        (* [new Date()] in [idempotencyService.set] *)
  at_stamp : Z;        (* [new Date().toISOString()] *)
}.

(** The [year-month-day] string built from the local date. *)
Definition effectedAt_of (now : Z) : string :=
  string_of_Z (getFullYear rt now) ++ "-"
  ++ padStart2 (string_of_Z (getMonth rt now + 1)) ++ "-"
  ++ padStart2 (string_of_Z (getDate rt now)).

(** The [if / else if] of [handleWebhook] that calls the Notifier. *)
Definition notify_aspin (webhook : PaymentHubWebhook) (transaction : PaymentTransaction)
    (mnoReference' effectedAt : string) (env : NotifyEnv) : M unit :=
  match wh_status webhook with
  | wh_completed =>
      notifyPaymentSuccess (policyGuid transaction) (amount transaction)
        mnoReference' effectedAt env
  | wh_failed =>
      notifyPaymentFailure (policyGuid transaction) (amount transaction)
        mnoReference' effectedAt env
  | wh_pending => ret tt
  end.

(** [PaymentService.handleWebhook]; the [catch] logs and throws the error
    on unchanged. *)
Definition handleWebhook (webhook : PaymentHubWebhook) (env : WebhookEnv) : M unit :=
  existing <~ idempotency_get (wh_transaction_id webhook) (at_check env) ;;
  match existing with
  | Some _ => ret tt
  | None =>
      s <~ get_state ;;
      match transactions s !! wh_transaction_id webhook with
      | None => throw ("Transaction not found: " ++ wh_transaction_id webhook)
      | Some transaction0 =>
          let transaction :=
            with_status transaction0 (status_of_webhook (wh_status webhook))
              (at_update env) in
          transactions_set (wh_transaction_id webhook) transaction ;;;
          let mnoReference' :=
            or_else (wh_mno_reference webhook) (wh_transaction_id webhook) in
          let effectedAt := effectedAt_of (at_effect env) in
          notify_aspin webhook transaction mnoReference' effectedAt (notify_env env) ;;;
          idempotency_set (wh_transaction_id webhook)
            {| processed := true;
               resp_timestamp := at_stamp env;
               resp_status := wh_status webhook |}
            (at_store env)
      end
  end.

(** [PaymentService.getTransaction] *)
Definition getTransaction (id : string) (s : State) : option PaymentTransaction :=
  transactions s !! id.

End Services.

(** ** middleware/error.ts *)

(** [isOperational]: the messages answered with status 400. *)
Definition isOperational (message : string) : bool :=
  includes "Invalid" message || includes "required" message
  || includes "not found" message.

(** ** Observations on states and traces *)

(** The payloads the Notifier was invoked with, oldest first. *)
Definition notifier_invocations (s : State) : list AspinPaymentUpdate :=
  omap (λ e, match e with EvNotify p => Some p | _ => None end) (events s).

Definition notify_count (s : State) : nat := length (notifier_invocations s).

(** The number of re-authentication requests sent so far. *)
Definition auth_calls (s : State) : nat :=
  length (omap (λ e, match e with EvAuthPost => Some tt | _ => None end) (events s)).


(** The ledger holds a record for [k] that [get] would return at [now]. *)
Definition ledger_live (k : string) (now : Z) (s : State) : bool :=
  match store s !! k with
  | Some record => negb (date_ltb (expiresAt record) (ValidDate now))
  | None => false
  end.

(** Terminal states of the lifecycle. *)
Definition terminal (st : Status) : bool :=
  match st with completed | failed => true | _ => false end.

(** The payload the Notifier builds for a delivery, if it is invoked. *)
Definition notification_of (rt : Runtime) (webhook : PaymentHubWebhook) (t : PaymentTransaction)
    (now : Z) : option AspinPaymentUpdate :=
  let build st :=
    {| policy_guid := policyGuid t;
       amount_in_cents := amount t * 100;
       mno_reference := or_else (wh_mno_reference webhook) (wh_transaction_id webhook);
       status := st;
       channel := "ApiClient";
       effected_at := effectedAt_of rt now |} in
  match wh_status webhook with
  | wh_completed => Some (build Succeeded)
  | wh_failed => Some (build Failed)
  | wh_pending => None
  end.

(** Events of a Notifier call for payload [p] after its [EvNotify]: the
    token request and the post of [p]. *)
Definition transport_event (p : AspinPaymentUpdate) (e : Event) : Prop :=
  match e with
  | EvAuthPost => True
  | EvPaymentPost q _ => q = p
  | EvNotify _ | EvLedgerSet _ => False
  end.

(** The record [handleWebhook] writes to the ledger. *)
Definition ledger_record (rt : Runtime) (webhook : PaymentHubWebhook) (env : WebhookEnv) : IdempotencyRecord :=
  {| key := wh_transaction_id webhook;
     response := {| processed := true; resp_timestamp := at_stamp env;
                    resp_status := wh_status webhook |};
     expiresAt := addSeconds rt (at_store env) (ttl rt) |}.

(** Two versions of a record that differ in [status] and [updatedAt] at
    most. *)
Definition same_payment (t t' : PaymentTransaction) : Prop :=
  transactionId t' = transactionId t ∧ policyGuid t' = policyGuid t
  ∧ amount t' = amount t ∧ currency t' = currency t ∧ msisdn t' = msisdn t
  ∧ gateway t' = gateway t ∧ gatewayReference t' = gatewayReference t
  ∧ mnoReference t' = mnoReference t ∧ createdAt t' = createdAt t
  ∧ metadata t' = metadata t.

(** ** A run of the process: calls one after the other *)

Inductive Op :=
  | OpInitiate (request : InitiatePaymentRequest) (env : InitiateEnv)
  | OpWebhook (webhook : PaymentHubWebhook) (env : WebhookEnv)
  | OpCleanup (now : Z)
  | OpClearToken.

Definition run_op (rt : Runtime) (op : Op) (s : State) : State :=
  match op with
  | OpInitiate request env => (initiatePayment request env s).2
  | OpWebhook webhook env => (handleWebhook rt webhook env s).2
  | OpCleanup now => (idempotency_cleanup now s).2
  | OpClearToken => (clearToken s).2
  end.

Definition run_ops (rt : Runtime) (ops : list Op) (s : State) : State :=
  foldl (λ st op, run_op rt op st) s ops.

(** An operation that does not create a record under the id [id]. *)
Definition keeps_id (id : string) (op : Op) : Prop :=
  match op with
  | OpInitiate _ env => new_transaction_id env ≠ id
  | _ => True
  end.

(** Webhook deliveries one after the other, each with its own readings;
    the result of every delivery is kept. *)
Fixpoint deliver_each (rt : Runtime) (ds : list (PaymentHubWebhook * WebhookEnv))
    (s : State) : list (Result unit) * State :=
  match ds with
  | [] => ([], s)
  | (webhook, env) :: rest =>
      let '(r, s1) := handleWebhook rt webhook env s in
      let '(rs, s2) := deliver_each rt rest s1 in
      (r :: rs, s2)
  end.

(** The same webhook delivered [length envs] times. *)
Definition deliver (rt : Runtime) (webhook : PaymentHubWebhook) (envs : list WebhookEnv)
    (s : State) : list (Result unit) * State :=
  deliver_each rt (map (λ env, (webhook, env)) envs) s.

(** The events a call appended, given the states before and after it. *)
Definition new_events (s s' : State) : list Event :=
  drop (length (events s)) (events s').


(** ** The credential cache under concurrent callers *)

(** [n] callers enter [getAccessToken] one after the other, at the given
    readings of the clock, before any reply to a token request has come
    back: each runs up to its first [await]. *)
Fixpoint start_callers (times : list Z) (s : State) : list (Result TokenCall) * State :=
  match times with
  | [] => ([], s)
  | now :: rest =>
      let '(c, s1) := getAccessToken_start now s in
      let '(cs, s2) := start_callers rest s1 in
      (c :: cs, s2)
  end.

(** The replies then come back, in the order given, each with the
    reading of the clock at which its caller resumes. *)
Fixpoint resume_callers (rt : Runtime) (replies : list (option AspinTokenResponse * Z))
    (s : State) : list (Result string) * State :=
  match replies with
  | [] => ([], s)
  | (reply, now) :: rest =>
      let '(r, s1) := authenticate_resume rt reply now s in
      let '(rs, s2) := resume_callers rt rest s1 in
      (r :: rs, s2)
  end.

(** The cached credential is absent or expired at [now]. *)
Definition absent_or_expired (now : Z) (s : State) : Prop :=
  match accessToken s, tokenExpiry s with
  | Some _, Some expiry => date_ltb (ValidDate now) expiry = false
  | _, _ => True
  end.

(** ** HTTP values of the callers *)

(** A JSON value as the handlers build it; a [Date] in a body is kept as
    its reading of the clock. *)
#[local] Unset Elimination Schemes.
Inductive Json :=
  | JUndefined
  | JNum (n : Z)
  | JStr (s : string)
  | JDate (ms : Z)
  | JObj (fields : list (string * Json)).
#[local] Set Elimination Schemes.

(** [res.status(code).json(body)] *)
Record HttpResponse := {
  http_status : Z;
  http_body : Json;
}.

(** What a middleware does: it calls [next()], possibly after attaching
    something to the request, or it answers. *)
Inductive Middleware (A : Type) : Type :=
  | Next (attached : A)
  | Respond (response : HttpResponse).
Arguments Next {A} attached.
Arguments Respond {A} response.

(** The first field called [name] of an object; [undefined] otherwise. *)
Definition json_field (name : string) (j : Json) : Json :=
  match j with
  | JObj fields =>
      match List.find (λ kv, String.eqb (fst kv) name) fields with
      | Some kv => snd kv
      | None => JUndefined
      end
  | _ => JUndefined
  end.

Definition status_string (st : Status) : string :=
  match st with
  | pending => "pending"
  | processing => "processing"
  | completed => "completed"
  | failed => "failed"
  end.

Definition currency_string (c : Currency) : string :=
  match c with
  | KES => "KES" | UGX => "UGX" | RWF => "RWF" | ZMW => "ZMW" | ZAR => "ZAR"
  end.

Definition gateway_string (g : PaymentGateway) : string :=
  match g with MPESA => "mpesa" | AIRTEL => "airtel" end.

Definition json_opt_string (o : option string) : Json :=
  match o with Some x => JStr x | None => JUndefined end.

(** ** middleware/auth.ts and middleware/correlation.ts *)

(** [s.split(" ")] *)
Fixpoint split_space (s : string) : list string :=
  match s with
  | EmptyString => [EmptyString]
  | String c rest =>
      if Ascii.eqb c " "%char then EmptyString :: split_space rest
      else match split_space rest with
           | part :: parts => String c part :: parts
           | [] => [String c EmptyString]
           end
  end.

(** Truthiness of a header that may be missing. *)
Definition present (h : option string) : bool :=
  match h with Some x => truthy x | None => false end.

(** [req.headers["x-api-key"] || req.headers.authorization?.split(" ")[1]];
    header names are lower case, as Node delivers them. *)
Definition request_api_key (headers : gmap string string) : option string :=
  if present (headers !! "x-api-key") then headers !! "x-api-key"
  else match headers !! "authorization" with
       | Some a => split_space a !! 1%nat
       | None => None
       end.

Definition unauthorized (message : string) (now : Z) : HttpResponse :=
  {| http_status := 401;
     http_body := JObj [("error", JStr "UNAUTHORIZED"); ("message", JStr message);
                        ("timestamp", JDate now)] |}.

(** [authenticateApiKey]; [api_key] is [config.api.key]. *)
Definition authenticateApiKey (api_key : string) (headers : gmap string string)
    (now : Z) : Middleware unit :=
  let apiKey := request_api_key headers in
  if negb (present apiKey) then Respond (unauthorized "API key is required" now)
  else if negb (bool_decide (apiKey = Some api_key)) then
    Respond (unauthorized "Invalid API key" now)
  else Next tt.

(** [req.webhookContext] *)
Record WebhookContext := {
  ctx_id : string;
  ctx_signature : string;
  ctx_timestamp : option string;
}.

(** [validateWebhookSignature] *)
Definition validateWebhookSignature (headers : gmap string string) (now : Z)
    : Middleware WebhookContext :=
  let signature := headers !! "x-signature" in
  let webhookId := headers !! "x-webhook-id" in
  if negb (present signature) || negb (present webhookId) then
    Respond (unauthorized "Webhook signature is required" now)
  else if bool_decide (signature = Some "invalid_signature") then
    Respond {| http_status := 400;
               http_body := JObj [("error", JStr "INVALID_SIGNATURE");
                                  ("message", JStr "Webhook signature validation failed");
                                  ("timestamp", JDate now)] |}
  else
    Next {| ctx_id := default EmptyString webhookId;
            ctx_signature := default EmptyString signature;
            ctx_timestamp := headers !! "x-webhook-timestamp" |}.

(** [correlationMiddleware]: the id it attaches to the request and sets
    as the [X-Correlation-ID] response header. *)
Definition correlationMiddleware (headers : gmap string string) (uuid : string) : string :=
  if present (headers !! "x-correlation-id") then default EmptyString (headers !! "x-correlation-id")
  else if present (headers !! "x-request-id") then default EmptyString (headers !! "x-request-id")
  else uuid.

(** ** middleware/error.ts, the handler itself *)

(** [errorHandler]: [message] is [err.message], [correlationId] is
    [req.correlationId]. *)
Definition errorHandler (message path : string) (correlationId : option string)
    (now : Z) : HttpResponse :=
  let trace := or_else correlationId "unknown" in
  let operational := isOperational message in
  let code := if operational then 400 else 500 in
  {| http_status := code;
     http_body :=
       JObj [("error",
              JObj [("code", JStr (if operational then "BAD_REQUEST"
                                   else "INTERNAL_SERVER_ERROR"));
                    ("message", JStr (if operational then message
                                      else "An unexpected error occurred"))]);
             ("status", JNum code);
             ("timestamp", JDate now);
             ("path", JStr path);
             ("trace_id", JStr trace)] |}.

(** ** controllers/payment.controller.ts *)

(** [InitiatePaymentRequestSchema.parse] on a body that already has the
    shape of the request type (the enumeration of currencies and the
    integer amount are in the type): the uuid, the positive safe-integer
    amount and the msisdn pattern are left to check. *)
Definition InitiatePaymentRequestSchema_ok (rt : Runtime) (body : InitiatePaymentRequest) : bool :=
  is_uuid rt (req_policy_guid body) && positive_int (req_amount body)
  && valid_msisdn (req_msisdn body).

(** [PaymentController.initiatePayment]; the [catch] throws the error on,
    the [ZodError] of a refused body with zod's issues as its message. *)
Definition controller_initiatePayment (rt : Runtime) (body : InitiatePaymentRequest)
    (env : InitiateEnv) (now : Z) : M HttpResponse :=
  if InitiatePaymentRequestSchema_ok rt body then
    result <~ initiatePayment body env ;;
    ret {| http_status := 202;
           http_body :=
             JObj [("transaction_id", JStr (fst result));
                   ("status", JStr (status_string (snd result)));
                   ("amount", JNum (req_amount body));
                   ("currency", JStr (currency_string (req_currency body)));
                   ("timestamp", JDate now);
                   ("_links", JObj [("self", JStr ("/api/payments/" ++ fst result))])] |}
  else throw (request_issues rt body).

(** The parameter of the status route as Express may deliver it. *)
Inductive RouteParam :=
  | ParamMissing
  | ParamString (value : string)
  | ParamArray (values : list string).

(** [PaymentController.getPaymentStatus] *)
Definition getPaymentStatus (param : RouteParam) (now : Z) (s : State) : HttpResponse :=
  let invalid :=
    {| http_status := 400;
       http_body :=
         JObj [("error", JObj [("code", JStr "INVALID_PARAMETER");
                               ("message", JStr "transactionId must be a single string")]);
               ("status", JNum 400);
               ("timestamp", JDate now)] |} in
  match param with
  | ParamMissing | ParamArray _ => invalid
  | ParamString transactionId' =>
      if negb (truthy transactionId') then invalid
      else
        match getTransaction transactionId' s with
        | None =>
            {| http_status := 404;
               http_body :=
                 JObj [("error",
                        JObj [("code", JStr "NOT_FOUND");
                              ("message",
                               JStr ("Transaction " ++ transactionId' ++ " not found"))]);
                       ("status", JNum 404);
                       ("timestamp", JDate now)] |}
        | Some transaction =>
            {| http_status := 200;
               http_body :=
                 JObj [("transaction_id", JStr (transactionId transaction));
                       ("policy_guid", JStr (policyGuid transaction));
                       ("status", JStr (status_string (tx_status transaction)));
                       ("amount", JNum (amount transaction));
                       ("currency", JStr (currency_string (currency transaction)));
                       ("gateway", JStr (gateway_string (gateway transaction)));
                       ("gateway_reference",
                        json_opt_string (gatewayReference transaction));
                       ("created_at", JDate (createdAt transaction));
                       ("updated_at", JDate (updatedAt transaction))] |}
        end
  end.

(** ** validators/payment.validator.ts and middleware/validation.ts *)

(** The optional string fields of a schema: absent, or a string. *)
Definition optional_string (j : Json) : bool :=
  match j with JUndefined | JStr _ => true | _ => false end.

(** [z.enum(["KES", "UGX", "RWF", "ZMW", "ZAR"])] *)
Definition currency_enum (j : Json) : bool :=
  match j with
  | JStr c => bool_decide (c ∈ ["KES"; "UGX"; "RWF"; "ZMW"; "ZAR"])
  | _ => false
  end.

(** [InitiatePaymentRequestSchema] on a JSON value, key by key as the
    [z.object] declares them: a key without [.optional()] must be there
    with the declared type, and keys the schema does not name are
    ignored. *)
Definition InitiatePaymentRequestSchema_accepts (rt : Runtime) (j : Json) : bool :=
  match j with
  | JObj _ =>
      match json_field "policy_guid" j with JStr g => is_uuid rt g | _ => false end
      && match json_field "amount" j with JNum n => positive_int n | _ => false end
      && currency_enum (json_field "currency" j)
      && match json_field "msisdn" j with JStr m => valid_msisdn m | _ => false end
      && optional_string (json_field "customer_id" j)
      && optional_string (json_field "external_reference" j)
      && optional_string (json_field "description" j)
      && match json_field "metadata" j with
         | JUndefined | JObj _ => true
         | _ => false
         end
  | _ => false
  end.

(** [PaymentHubWebhookSchema] on a JSON value; [is_datetime] is zod's
    [.datetime()] check. *)
Definition PaymentHubWebhookSchema_accepts (rt : Runtime) (is_datetime : string → bool)
    (j : Json) : bool :=
  match j with
  | JObj _ =>
      match json_field "transaction_id" j with JStr _ => true | _ => false end
      && match json_field "status" j with
         | JStr st => bool_decide (st ∈ ["completed"; "failed"; "pending"])
         | _ => false
         end
      && match json_field "amount" j with JNum n => positive_int n | _ => false end
      && currency_enum (json_field "currency" j)
      && match json_field "timestamp" j with JStr t => is_datetime t | _ => false end
      && optional_string (json_field "signature" j)
      && match json_field "policy_guid" j with
         | JUndefined => true
         | JStr g => is_uuid rt g
         | _ => false
         end
      && optional_string (json_field "mno_reference" j)
  | _ => false
  end.

(** The body of an initiation request as JSON. *)
Definition request_json (r : InitiatePaymentRequest) : Json :=
  JObj [("policy_guid", JStr (req_policy_guid r));
        ("amount", JNum (req_amount r));
        ("currency", JStr (currency_string (req_currency r)));
        ("msisdn", JStr (req_msisdn r));
        ("customer_id", json_opt_string (req_customer_id r));
        ("external_reference", json_opt_string (req_external_reference r));
        ("description", json_opt_string (req_description r));
        ("metadata",
         match req_metadata r with
         | Some kvs => JObj (map (λ kv, (fst kv, JStr (snd kv))) kvs)
         | None => JUndefined
         end)].

(** [validate(schema)]: the schema is applied to the object
    [{ body, query, params }]; [issues] is what zod reports when it
    refuses (the schemas here throw nothing else). *)
Definition validate (schema : Json → bool) (body query params issues : Json)
    (path : string) (correlationId : option string) (now : Z) : Middleware unit :=
  if schema (JObj [("body", body); ("query", query); ("params", params)]) then Next tt
  else
    Respond
      {| http_status := 400;
         http_body :=
           JObj [("error",
                  JObj [("code", JStr "VALIDATION_ERROR");
                        ("message", JStr "Request validation failed");
                        ("details", issues)]);
                 ("status", JNum 400);
                 ("timestamp", JDate now);
                 ("path", JStr path);
                 ("trace_id", json_opt_string correlationId)] |}.

(** ** Shapes of strings *)

(** No blank in the string. *)
Definition no_space (s : string) : bool :=
  forallb (λ c, negb (Ascii.eqb c " "%char)) (list_ascii_of_string s).

(** [/^\d{4}-\d{2}-\d{2}$/], the shape of a date without a time. *)
Definition is_ymd (s : string) : bool :=
  match list_ascii_of_string s with
  | [y1; y2; y3; y4; d1; m1; m2; d2; a1; a2] =>
      forallb is_digit [y1; y2; y3; y4; m1; m2; a1; a2]
      && Ascii.eqb d1 "-"%char && Ascii.eqb d2 "-"%char
  | _ => false
  end.

(** [/^\d{n}$/] *)
Definition digits (n : nat) (s : string) : bool :=
  (String.length s =? n)%nat && forallb is_digit (list_ascii_of_string s).

(** ** A concrete scenario *)

Module Scenario.

(** A process in a zone whose offset never changes. *)
Definition rt : Runtime :=
  {| is_uuid := λ s, (String.length s =? 36)%nat;
     is_date := λ s, (String.length s =? 10)%nat;
     payment_update_issues :=
       λ _, "[{ code: too_small, message: Too small: expected number to be >0 }]";
     request_issues := λ _, "[{ code: invalid_format, message: Invalid UUID }]";
     getFullYear := λ _, 2026;
     getMonth := λ _, 1;
     getDate := λ _, 15;
     addSeconds := λ now n, ValidDate (now + 1000 * n);
     ttl := config_idempotency_ttl None |}.



Definition request : InitiatePaymentRequest :=
  {| req_policy_guid := "123e4567-e89b-12d3-a456-426614174000";
     req_amount := 5000;
     req_currency := KES;
     req_msisdn := "00254712345678";
     req_customer_id := None;
     req_external_reference := None;
     req_description := None;
     req_metadata := None |}.

Definition request_3000 : InitiatePaymentRequest :=
  {| req_policy_guid := "123e4567-e89b-12d3-a456-426614174000";
     req_amount := 3000;
     req_currency := KES;
     req_msisdn := "00254712345678";
     req_customer_id := None;
     req_external_reference := None;
     req_description := None;
     req_metadata := None |}.

Definition ienv : InitiateEnv :=
  {| uuid_tx := "9b2f1c3a-7d4e-4b1a-8c2d-5e6f7a8b9c0d";
     at_created := 1000;
     at_created_upd := 1000;
     rand := 1 # 2;
     uuid_gw := "0a1b2c3d-4e5f-4a6b-8c7d-9e0f1a2b3c4d";
     date_now := 1200;
     at_updated := 1201 |}.

Definition txn : string := "TXN_9b2f1c3a7d4e".

Definition webhook (st : WebhookStatus) : PaymentHubWebhook :=
  {| wh_transaction_id := txn;
     wh_status := st;
     wh_amount := 5000;
     wh_currency := KES;
     wh_timestamp := "2026-02-15T10:30:00Z";
     wh_signature := None;
     wh_policy_guid := None;
     wh_mno_reference := None |}.

Definition token : AspinTokenResponse :=
  {| access_token := "eyJhbGciOi"; token_type := "bearer";
   refresh_token := "cmVmcmVzaA"; expires_in := 3600; scope := "all";
   user_client_name := "demo"; user_guid := "u-1";
   user_fullname := "Test Admin"; user_partners := [] |}.

(** A delivery checked at [now]; [accepted] is the fate of the post. *)
Definition wenv (now : Z) (accepted : bool) : WebhookEnv :=
  {| at_check := now;
     at_update := now + 1;
     at_effect := now + 1;
     notify_env := {| at_token := now + 2; auth_reply := Some token;
                      at_auth := now + 3; post_accepted := accepted |};
     at_store := now + 4;
     at_stamp := now + 4 |}.

(** The state after the payment was initiated. *)
Definition initiated : State := (initiatePayment request ienv initial_state).2.

(** The state after the completed webhook was then processed at 2000. *)
Definition settled : State :=
  (handleWebhook rt (webhook wh_completed) (wenv 2000 true) initiated).2.

(** One day in milliseconds. *)
Definition day : Z := 86400000.

(** The settlement update of the scenario, as [notifyPaymentSuccess]
    builds it. *)
Definition payload : AspinPaymentUpdate :=
  {| policy_guid := "123e4567-e89b-12d3-a456-426614174000";
     amount_in_cents := 500000;
     mno_reference := txn;
     status := Succeeded;
     channel := "ApiClient";
     effected_at := "2026-02-15" |}.

End Scenario.

(** * Properties *)

(** ** Basic facts about the monad and the state *)

Lemma set_store_same s : set_store (store s) s = s.
Proof. by destruct s. Qed.

Lemma set_transactions_same s : set_transactions (transactions s) s = s.
Proof. by destruct s. Qed.

(** A date that has not passed at a reading of the clock had not passed
    at an earlier one. *)
Lemma date_ltb_mono d now now' :
  now ≤ now' →
  date_ltb d (ValidDate now') = false → date_ltb d (ValidDate now) = false.
Proof.
  destruct d as [ms|]; simpl; [|done].
  intros Hle H. apply Z.ltb_ge in H. apply Z.ltb_ge. lia.
Qed.

Ltac svc_unfold :=
  unfold handleWebhook, notify_aspin, notifyPaymentSuccess, notifyPaymentFailure,
    sendPaymentUpdate, AspinPaymentUpdateSchema_parse, getAccessToken,
    getAccessToken_start, authenticate_resume, idempotency_get, idempotency_set,
    idempotency_cleanup, clearToken, transactions_set, initiatePayment,
    gateway_initiatePayment, initiateMpesaPayment, initiateAirtelPayment,
    simulateNetworkConditions, rethrow_as, bind, ret, throw, modify, get_state in *.

(** [x] is none of the listed events, each of which differs from it by a
    constructor or a field. *)
Ltac not_in_list :=
  repeat (apply not_elem_of_cons; split; [discriminate|]); apply not_elem_of_nil.

(** ** The Gateway Router *)

(** What the router computes, read off the three tests of the source. *)
Lemma determineGateway_cases (m : string) :
  determineGateway m =
    if startsWith "00254" m then (if airtel_prefix m && negb (mpesa_prefix m) then AIRTEL else MPESA)
    else AIRTEL.
Proof.
  unfold determineGateway, mpesa_prefix, airtel_prefix.
  destruct (startsWith "00254" m); [|done].
  rewrite !andb_true_l.
  by destruct (match String.get 5 m with Some _ => _ | None => _ end),
              (match String.get 5 m with Some _ => _ | None => _ end).
Qed.

(** C7.  The router is a total, deterministic, pure function of the
    subscriber identifier: for every identifier (the syntactically valid
    ones among them) it yields one of the two channels and nothing else,
    equal identifiers yield equal channels, no state or runtime enters
    the computation, and subscriber 00254712345678, which is
    syntactically valid, is routed to M-Pesa. *)
Theorem determineGateway_total_deterministic :
  (∀ m : string, valid_msisdn m = true →
     ∃ g : PaymentGateway, determineGateway m = g ∧ (g = MPESA ∨ g = AIRTEL))
  ∧ (∀ m : string, ∃ g : PaymentGateway, determineGateway m = g)
  ∧ (∀ m1 m2 : string, m1 = m2 → determineGateway m1 = determineGateway m2)
  ∧ valid_msisdn "00254712345678" = true
  ∧ determineGateway "00254712345678" = MPESA.
Proof.
  split_and!.
  - intros m _. exists (determineGateway m). split; [done|].
    destruct (determineGateway m); auto.
  - intros m. by exists (determineGateway m).
  - by intros m1 m2 ->.
  - reflexivity.
  - reflexivity.
Qed.

Lemma determineGateway_total_deterministic_witness :
  valid_msisdn "00254733000111" = true
  ∧ ∃ g, determineGateway "00254733000111" = g ∧ (g = MPESA ∨ g = AIRTEL).
Proof.
  split; [reflexivity|].
  apply (proj1 determineGateway_total_deterministic "00254733000111").
  reflexivity.
Defined.

(** ** The Idempotency Ledger *)

Section Ledger.

Variable rt : Runtime.

Lemma idempotency_get_live k now s :
  ledger_live k now s = true →
  ∃ resp, idempotency_get k now s = (Ok (Some resp), s).
Proof.
  unfold ledger_live. svc_unfold.
  destruct (store s !! k) as [record|]; [|done].
  destruct (date_ltb (expiresAt record) (ValidDate now)); [done|].
  intros _. by exists (response record).
Qed.

Lemma idempotency_get_dead k now s :
  ledger_live k now s = false →
  idempotency_get k now s = (Ok None, set_store (delete k (store s)) s).
Proof.
  unfold ledger_live. svc_unfold.
  destruct (store s !! k) as [record|] eqn:Hk.
  - destruct (date_ltb (expiresAt record) (ValidDate now)); [done|]. by simpl.
  - intros _. by rewrite delete_id, set_store_same.
Qed.

(** A record that [set] wrote at [now] is live until the date it stored
    has passed. *)
Lemma ledger_live_after_set k resp now now' s :
  date_ltb (addSeconds rt now (ttl rt)) (ValidDate now') = false →
  ledger_live k now' (idempotency_set rt k resp now s).2 = true.
Proof.
  intros Hle. unfold ledger_live. svc_unfold. simpl.
  rewrite lookup_insert_eq. simpl. by rewrite Hle.
Qed.

(** [cleanup] removes no record that [get] would still return. *)
Lemma cleanup_keeps_live k now now' s :
  now ≤ now' →
  ledger_live k now' s = true →
  ledger_live k now' (idempotency_cleanup now s).2 = true.
Proof.
  intros Hle. unfold ledger_live. svc_unfold. simpl.
  destruct (store s !! k) as [record|] eqn:Hk; [|done].
  intros Hlive. apply negb_true_iff in Hlive.
  erewrite map_lookup_filter_Some_2;
    [| exact Hk | simpl; by apply (date_ltb_mono _ now now') ].
  by rewrite Hlive.
Qed.

End Ledger.

(** ** The Notifier *)

Section Notifier.

Variable rt : Runtime.

Lemma omap_notify_transport p (l : list Event) :
  Forall (transport_event p) l →
  omap (λ e, match e with EvNotify p => Some p | _ => None end) l = [].
Proof.
  induction 1 as [|e l He _ IH]; [done|].
  destruct e; simpl in *; try done; by rewrite IH.
Qed.


(** [sendPaymentUpdate] touches neither map; it appends transport events
    only; it returns normally only after an accepted post, its last
    event; and it fails with its one message. *)
Lemma sendPaymentUpdate_spec p env s r s' :
  sendPaymentUpdate rt p env s = (r, s') →
  transactions s' = transactions s ∧ store s' = store s
  ∧ ∃ δ : list Event, events s' = (events s ++ δ)%list ∧ Forall (transport_event p) δ
      ∧ (r = Ok tt → ∃ δ' : list Event, δ = (δ' ++ [EvPaymentPost p true])%list)
      ∧ (∀ e, r = Throw e → e = "Failed to notify ASPIn of payment status"
                            ∧ EvPaymentPost p true ∉ δ).
Proof.
  svc_unfold. simpl.
  destruct (cached_token (at_token env) s) as [tok|]; simpl.
  - destruct (post_accepted env) eqn:Hacc; simpl; intros [= <- <-]; simpl;
      (split_and!; [done..|]).
    + exists [EvPaymentPost p true]. split_and!; [done| |by exists []|done].
      by repeat constructor.
    + exists [EvPaymentPost p false]. split_and!; [done| |done|].
      * by repeat constructor.
      * intros e [= <-]. split; [done|]. not_in_list.
  - destruct (auth_reply env) as [tokenData|]; simpl.
    + destruct (post_accepted env) eqn:Hacc; simpl; intros [= <- <-]; simpl;
        (split_and!; [done..|]).
      * exists [EvAuthPost; EvPaymentPost p true].
        rewrite <- app_assoc. split_and!; [done| |by exists [EvAuthPost]|done].
        by repeat constructor.
      * exists [EvAuthPost; EvPaymentPost p false].
        rewrite <- app_assoc. split_and!; [done| |done|].
        -- by repeat constructor.
        -- intros e [= <-]. split; [done|]. not_in_list.
    + intros [= <- <-]; simpl. split_and!; [done..|].
      exists [EvAuthPost]. split_and!; [done| |done|].
      * by repeat constructor.
      * intros e [= <-]. split; [done|]. not_in_list.
Qed.

(** The [if / else if] of [handleWebhook]: for [pending] nothing at all;
    otherwise one [EvNotify] with the payload of [notification_of],
    followed by transport events, the last of them an accepted post when
    the call returns normally. *)
Lemma notify_aspin_spec webhook t now env s r s' :
  notify_aspin rt webhook t
    (or_else (wh_mno_reference webhook) (wh_transaction_id webhook))
    (effectedAt_of rt now) env s = (r, s') →
  transactions s' = transactions s ∧ store s' = store s
  ∧ match notification_of rt webhook t now with
    | None => r = Ok tt ∧ s' = s
    | Some p =>
        ∃ δ : list Event,
          events s' = (events s ++ EvNotify p :: δ)%list ∧ Forall (transport_event p) δ
          ∧ (r = Ok tt → ∃ δ' : list Event, δ = (δ' ++ [EvPaymentPost p true])%list)
          ∧ (∀ e, r = Throw e → EvPaymentPost p true ∉ δ)
    end.
Proof.
  unfold notify_aspin, notification_of.
  destruct (wh_status webhook).
  1,2: unfold notifyPaymentSuccess, notifyPaymentFailure,
         AspinPaymentUpdateSchema_parse, bind, modify, ret, throw;
       match goal with |- context [AspinPaymentUpdateSchema_ok _ ?p] => set (payload := p) end;
       destruct (AspinPaymentUpdateSchema_ok rt payload);
       [ destruct (sendPaymentUpdate rt payload env (emit (EvNotify payload) s))
           as [r1 s1] eqn:Hsend;
         intros [= <- <-];
         apply sendPaymentUpdate_spec in Hsend
           as (Htx & Hst & δ & Hev & Htr & Hok & Hthrow);
         split_and!; [done..|];
         exists δ; simpl in Hev; rewrite <- app_assoc in Hev;
         split_and!; [done|done|done|];
         intros e He; by apply (Hthrow e)
       | intros [= <- <-]; split_and!; [done..|];
         exists []; split_and!; [done|constructor|done|];
         intros e _; not_in_list ].
  intros [= <- <-]. by split_and!.
Qed.

End Notifier.

(** ** The webhook processor, case by case *)

Section Webhook.

Variable rt : Runtime.

(** A live ledger record: the delivery returns at once, nothing changes. *)
Lemma handleWebhook_live webhook env s :
  ledger_live (wh_transaction_id webhook) (at_check env) s = true →
  handleWebhook rt webhook env s = (Ok tt, s).
Proof.
  intros Hlive. destruct (idempotency_get_live _ _ _ Hlive) as [resp Hget].
  unfold handleWebhook, bind. by rewrite Hget.
Qed.

(** No live record and no such transaction: the delivery throws. *)
Lemma handleWebhook_unknown webhook env s :
  ledger_live (wh_transaction_id webhook) (at_check env) s = false →
  transactions s !! wh_transaction_id webhook = None →
  handleWebhook rt webhook env s =
    (Throw ("Transaction not found: " ++ wh_transaction_id webhook),
     set_store (delete (wh_transaction_id webhook) (store s)) s).
Proof.
  intros Hdead Htx. unfold handleWebhook, bind at 1.
  rewrite (idempotency_get_dead _ _ _ Hdead).
  unfold bind, get_state, throw. simpl. by rewrite Htx.
Qed.

(** No live record and a known transaction: the delivery is processed. *)
Lemma handleWebhook_processed webhook env s t0 r s' :
  ledger_live (wh_transaction_id webhook) (at_check env) s = false →
  transactions s !! wh_transaction_id webhook = Some t0 →
  handleWebhook rt webhook env s = (r, s') →
  let id := wh_transaction_id webhook in
  transactions s' =
    <[id := with_status t0 (status_of_webhook (wh_status webhook)) (at_update env)]>
      (transactions s)
  ∧ store s' = (if is_ok r then <[id := ledger_record rt webhook env]> (store s)
                else delete id (store s))
  ∧ ∃ δ : list Event, events s' = (events s ++ δ)%list
    ∧ match notification_of rt webhook t0 (at_effect env) with
      | None => r = Ok tt ∧ δ = [EvLedgerSet id]
      | Some p =>
          ∃ δn : list Event, Forall (transport_event p) δn
            ∧ ((r = Ok tt
                ∧ (∃ δ' : list Event, δn = (δ' ++ [EvPaymentPost p true])%list)
                ∧ δ = (EvNotify p :: δn ++ [EvLedgerSet id])%list)
               ∨ ((∃ e, r = Throw e) ∧ (EvPaymentPost p true ∉ δn)
                  ∧ δ = EvNotify p :: δn))
      end.
Proof.
  intros Hdead Htx. unfold handleWebhook, bind at 1.
  rewrite (idempotency_get_dead _ _ _ Hdead).
  unfold bind at 1, get_state at 1. simpl. rewrite Htx.
  unfold bind at 1, transactions_set, bind at 1, get_state, modify. simpl.
  unfold bind at 1.
  set (t := with_status t0 _ _).
  set (s2 := set_transactions _ _).
  destruct (notify_aspin rt webhook t _ _ (notify_env env) s2) as [r1 s3] eqn:Hn.
  apply notify_aspin_spec in Hn as (Htr & Hst & Hn).
  change (notification_of rt webhook t (at_effect env))
    with (notification_of rt webhook t0 (at_effect env)) in Hn.
  destruct r1 as [[]|e].
  - unfold idempotency_set, bind, get_state, modify. simpl.
    intros [= <- <-]. simpl. rewrite Htr, Hst. subst s2. simpl.
    split_and!; [done|by rewrite insert_delete_eq|].
    destruct (notification_of rt webhook t0 (at_effect env)) as [p|].
    + destruct Hn as (δn & Hev & Hδn & Hok & _).
      exists (EvNotify p :: δn ++ [EvLedgerSet (wh_transaction_id webhook)])%list.
      split.
      * rewrite Hev. simpl. by rewrite <- app_assoc.
      * exists δn. split; [done|]. left. split_and!; [done|by apply Hok|done].
    + destruct Hn as [_ ->]. by exists [EvLedgerSet (wh_transaction_id webhook)].
  - intros [= <- <-]. simpl. rewrite Htr, Hst. subst s2. simpl.
    split_and!; [done|done|].
    destruct (notification_of rt webhook t0 (at_effect env)) as [p|].
    + destruct Hn as (δn & Hev & Hδn & _ & Hthrow).
      exists (EvNotify p :: δn). split; [done|].
      exists δn. split; [done|]. right. split_and!; [by exists e|by apply (Hthrow e)|done].
    + by destruct Hn as [? _].
Qed.

(** Nothing but the record of the delivery's transaction is written, and
    of that record only [status] and [updatedAt]. *)
Lemma same_payment_refl t : same_payment t t.
Proof. by repeat split. Qed.

Lemma same_payment_with_status t st now : same_payment t (with_status t st now).
Proof. by repeat split. Qed.

Lemma handleWebhook_transactions webhook env s id :
  match transactions s !! id with
  | Some t =>
      ∃ t', transactions (handleWebhook rt webhook env s).2 !! id = Some t'
            ∧ same_payment t t'
            ∧ (id ≠ wh_transaction_id webhook → t' = t)
  | None => transactions (handleWebhook rt webhook env s).2 !! id = None
  end.
Proof.
  destruct (ledger_live (wh_transaction_id webhook) (at_check env) s) eqn:Hlive.
  { rewrite (handleWebhook_live _ _ _ Hlive). simpl.
    destruct (transactions s !! id) as [t|]; [|done].
    exists t. split_and!; [done|apply same_payment_refl|done]. }
  destruct (transactions s !! wh_transaction_id webhook) as [t0|] eqn:Htx.
  - destruct (handleWebhook rt webhook env s) as [r s'] eqn:Hrun.
    destruct (handleWebhook_processed _ _ _ _ _ _ Hlive Htx Hrun) as (Htr & _).
    simpl in *. rewrite Htr.
    destruct (decide (wh_transaction_id webhook = id)) as [<-|Hne].
    + rewrite Htx, lookup_insert_eq. eexists. split_and!; [done| |done].
      apply same_payment_with_status.
    + rewrite lookup_insert_ne by done.
      destruct (transactions s !! id) as [t|]; [|done].
      exists t. split_and!; [done|apply same_payment_refl|done].
  - rewrite (handleWebhook_unknown _ _ _ Hlive Htx). simpl.
    destruct (transactions s !! id) as [t|]; [|done].
    exists t. split_and!; [done|apply same_payment_refl|done].
Qed.

End Webhook.

(** ** Initiation *)

Lemma initiatePayment_invalid_amount request env s :
  req_currency request = KES → req_amount request ≠ 5000 →
  initiatePayment request env s =
    (Throw "Invalid payment amount. KES 5,000 required for this policy", s).
Proof.
  intros Hc Ha. unfold initiatePayment.
  rewrite bool_decide_eq_true_2 by done.
  by rewrite (proj2 (Z.eqb_neq _ _) Ha).
Qed.

(** C6.  An initiation request in KES whose amount is not 5000 is
    rejected with the invalid-amount error, which the error handler
    answers as a client error, and the call leaves the state as it was:
    no record is created. *)
Theorem initiatePayment_KES_amount_rejected request env s :
  req_currency request = KES → req_amount request ≠ 5000 →
  ∃ message,
    initiatePayment request env s = (Throw message, s)
    ∧ message = "Invalid payment amount. KES 5,000 required for this policy"
    ∧ isOperational message = true
    ∧ transactions (initiatePayment request env s).2 = transactions s.
Proof.
  intros Hc Ha. eexists. rewrite (initiatePayment_invalid_amount _ _ _ Hc Ha).
  by split_and!.
Qed.

Lemma initiatePayment_KES_amount_rejected_witness :
  req_currency Scenario.request_3000 = KES
  ∧ req_amount Scenario.request_3000 ≠ 5000
  ∧ ∃ message,
    initiatePayment Scenario.request_3000 Scenario.ienv initial_state
      = (Throw message, initial_state)
    ∧ message = "Invalid payment amount. KES 5,000 required for this policy"
    ∧ isOperational message = true
    ∧ transactions (initiatePayment Scenario.request_3000 Scenario.ienv initial_state).2
      = transactions initial_state.
Proof.
  split; [reflexivity|]. split; [simpl; lia|].
  apply (initiatePayment_KES_amount_rejected
           Scenario.request_3000 Scenario.ienv initial_state).
  - reflexivity.
  - simpl. lia.
Defined.

(** A successful initiation: the id, the status the gateway reported,
    and the one record written; the ledger, the credential and the trace
    are as before. *)
Lemma initiatePayment_ok request env s tid st s' :
  initiatePayment request env s = (Ok (tid, st), s') →
  tid = new_transaction_id env ∧ st = pending
  ∧ store s' = store s ∧ events s' = events s
  ∧ ∃ t, transactions s' = <[tid := t]> (transactions s)
      ∧ tx_status t = pending
      ∧ amount t = req_amount request ∧ currency t = req_currency request
      ∧ gateway t = determineGateway (req_msisdn request)
      ∧ is_Some (gatewayReference t).
Proof.
  unfold initiatePayment.
  destruct (bool_decide _ && negb _); [done|].
  svc_unfold. simpl.
  destruct (determineGateway (req_msisdn request)) eqn:Hg; simpl;
    destruct (negb (Qle_bool timeout_threshold (rand env))); simpl; try done;
    intros [= <- <- <-]; simpl;
    (split_and!; [done..|]);
    eexists; (split; [apply insert_insert_eq|]); simpl;
    by split_and!.
Qed.

(** An initiation writes no record but the one under its new id, whether
    it returns or throws. *)
Lemma initiatePayment_other request env s id :
  id ≠ new_transaction_id env →
  transactions (initiatePayment request env s).2 !! id = transactions s !! id.
Proof.
  intros Hne. unfold initiatePayment.
  destruct (bool_decide _ && negb _); [done|].
  svc_unfold. simpl.
  destruct (determineGateway (req_msisdn request)); simpl;
    destruct (negb (Qle_bool timeout_threshold (rand env))); simpl;
    by rewrite ?lookup_insert_ne.
Qed.

Lemma initiatePayment_store request env s :
  store (initiatePayment request env s).2 = store s.
Proof.
  unfold initiatePayment.
  destruct (bool_decide _ && negb _); [done|].
  svc_unfold. simpl.
  by destruct (determineGateway (req_msisdn request)); simpl;
    destruct (negb (Qle_bool timeout_threshold (rand env))).
Qed.

Lemma same_payment_trans t1 t2 t3 :
  same_payment t1 t2 → same_payment t2 t3 → same_payment t1 t3.
Proof. unfold same_payment. intros ? ?. destruct_and!. split_and!; congruence. Qed.

(** No operation removes a record, and none but an initiation that
    reuses its id changes more than its [status] and [updatedAt]. *)
Lemma run_op_same_payment rt op s id t :
  transactions s !! id = Some t → keeps_id id op →
  ∃ t', transactions (run_op rt op s) !! id = Some t' ∧ same_payment t t'.
Proof.
  intros Hid Hkeep. destruct op as [request env|webhook env|now|]; simpl in *.
  - rewrite initiatePayment_other by done.
    exists t. split; [done|]. apply same_payment_refl.
  - pose proof (handleWebhook_transactions rt webhook env s id) as H.
    rewrite Hid in H. destruct H as (t' & Ht' & Hsame & _). by exists t'.
  - exists t. split; [done|]. apply same_payment_refl.
  - exists t. split; [done|]. apply same_payment_refl.
Qed.

Lemma run_ops_same_payment rt ops s id t :
  transactions s !! id = Some t → Forall (keeps_id id) ops →
  ∃ t', transactions (run_ops rt ops s) !! id = Some t' ∧ same_payment t t'.
Proof.
  intros Hid Hall. revert s t Hid.
  induction Hall as [|op ops Hop _ IH]; intros s t Hid.
  - exists t. split; [done|]. apply same_payment_refl.
  - destruct (run_op_same_payment rt op s id t Hid Hop) as (t1 & H1 & Hs1).
    destruct (IH _ _ H1) as (t2 & H2 & Hs2).
    exists t2. split; [exact H2|]. by eapply same_payment_trans.
Qed.

(** The record of a successful initiation is still there after any run
    that does not draw its id again, with the amount and the currency of
    the request. *)
Lemma initiated_record_after_ops rt request env s tid st s' ops :
  initiatePayment request env s = (Ok (tid, st), s') →
  Forall (keeps_id tid) ops →
  ∃ t', transactions (run_ops rt ops s') !! tid = Some t'
        ∧ amount t' = req_amount request
        ∧ currency t' = req_currency request.
Proof.
  intros Hrun Hops.
  apply initiatePayment_ok in Hrun
    as (-> & -> & _ & _ & t & Htx & _ & Ham & Hcu & _).
  assert (transactions s' !! new_transaction_id env = Some t) as Hid.
  { rewrite Htx. apply lookup_insert_eq. }
  destruct (run_ops_same_payment rt ops s' _ t Hid Hops) as (t' & Ht' & Hsame).
  exists t'. unfold same_payment in Hsame. destruct_and!.
  split_and!; congruence.
Qed.

(** C4 (as the code has it).  After [initiatePayment] succeeds, the
    record created under the returned id carries the channel chosen by
    the router, the channel's reference, the amount and the currency of
    the request, and the status the gateway reported, which is [pending]
    for both channels (not [processing]); and whatever runs afterwards,
    short of an initiation drawing the same id again, the record stays
    and its amount and currency stay what they were. *)
Theorem initiatePayment_record_pending_amount_fixed
    rt request env s tid st s' :
  initiatePayment request env s = (Ok (tid, st), s') →
  st = pending
  ∧ ∃ t, transactions s' !! tid = Some t
      ∧ tx_status t = pending
      ∧ gateway t = determineGateway (req_msisdn request)
      ∧ is_Some (gatewayReference t)
      ∧ amount t = req_amount request ∧ currency t = req_currency request
      ∧ ∀ ops, Forall (keeps_id tid) ops →
          ∃ t', transactions (run_ops rt ops s') !! tid = Some t'
                ∧ amount t' = req_amount request
                ∧ currency t' = req_currency request.
Proof.
  intros Hrun.
  pose proof (λ ops, initiated_record_after_ops rt _ _ _ _ _ _ ops Hrun) as Hafter.
  apply initiatePayment_ok in Hrun
    as (-> & -> & _ & _ & t & Htx & Hst & Ham & Hcu & Hgw & Href).
  split; [done|]. exists t.
  split_and!; try done.
  rewrite Htx. apply lookup_insert_eq.
Qed.

Lemma initiatePayment_record_pending_amount_fixed_witness :
  initiatePayment Scenario.request Scenario.ienv initial_state
    = (Ok (Scenario.txn, pending), Scenario.initiated)
  ∧ ∃ t, transactions Scenario.initiated !! Scenario.txn = Some t
    ∧ tx_status t = pending
    ∧ amount t = 5000 ∧ currency t = KES
    ∧ ∃ t', transactions Scenario.settled !! Scenario.txn = Some t'
            ∧ amount t' = 5000 ∧ currency t' = KES.
Proof.
  split; [reflexivity|].
  destruct (initiatePayment_record_pending_amount_fixed Scenario.rt
              Scenario.request Scenario.ienv initial_state
              Scenario.txn pending Scenario.initiated)
    as (_ & t & Ht & Hst & _ & _ & Ham & Hcu & Hafter).
  - reflexivity.
  - exists t. split_and!; [exact Ht|exact Hst|exact Ham|exact Hcu|].
    apply (Hafter [OpWebhook (Scenario.webhook wh_completed) (Scenario.wenv 2000 true)]).
    repeat constructor.
Defined.

(** C4, the claim as written fails: on the request of the integration
    test the call succeeds and leaves the record in [pending]. *)
Lemma initiatePayment_not_processing :
  (initiatePayment Scenario.request Scenario.ienv initial_state).1
    = Ok (Scenario.txn, pending)
  ∧ tx_status <$> (transactions Scenario.initiated !! Scenario.txn) = Some pending
  ∧ tx_status <$> (transactions Scenario.initiated !! Scenario.txn) ≠ Some processing.
Proof. by vm_compute. Qed.

(** ** Deliveries and the trace *)

Section Deliveries.

Variable rt : Runtime.

Lemma new_events_app s s' (δ : list Event) :
  events s' = (events s ++ δ)%list → new_events s s' = δ.
Proof. intros H. unfold new_events. rewrite H. apply drop_app_length. Qed.

Lemma new_events_same s : new_events s s = [].
Proof. apply new_events_app. by rewrite app_nil_r. Qed.

Lemma notifier_invocations_app s s' (δ : list Event) :
  events s' = (events s ++ δ)%list →
  notifier_invocations s' =
    (notifier_invocations s
     ++ omap (λ e, match e with EvNotify p => Some p | _ => None end) δ)%list.
Proof. intros H. unfold notifier_invocations. by rewrite H, omap_app. Qed.

(** A processed delivery invokes the Notifier once if its outcome is
    completed or failed and not at all if it is pending, whether or not
    the call then succeeds. *)
Lemma handleWebhook_processed_invocations webhook env s t0 :
  ledger_live (wh_transaction_id webhook) (at_check env) s = false →
  transactions s !! wh_transaction_id webhook = Some t0 →
  notifier_invocations (handleWebhook rt webhook env s).2 =
    (notifier_invocations s
     ++ option_list (notification_of rt webhook t0 (at_effect env)))%list.
Proof.
  intros Hdead Htx.
  destruct (handleWebhook rt webhook env s) as [r s'] eqn:Hrun.
  destruct (handleWebhook_processed rt _ _ _ _ _ _ Hdead Htx Hrun)
    as (_ & _ & δ & Hev & Hδ).
  simpl in *. rewrite (notifier_invocations_app _ _ _ Hev). f_equal.
  destruct (notification_of rt webhook t0 (at_effect env)) as [p|].
  - destruct Hδ as (δn & Hδn & [(_ & _ & ->)|(_ & _ & ->)]); simpl.
    + rewrite omap_app, (omap_notify_transport p) by done. done.
    + by rewrite (omap_notify_transport p).
  - by destruct Hδ as [_ ->].
Qed.

(** A delivery writes no ledger record but the one of its transaction. *)
Lemma handleWebhook_store_other webhook env s k :
  k ≠ wh_transaction_id webhook →
  store (handleWebhook rt webhook env s).2 !! k = store s !! k.
Proof.
  intros Hne.
  destruct (ledger_live (wh_transaction_id webhook) (at_check env) s) eqn:Hlive.
  { by rewrite (handleWebhook_live _ _ _ _ Hlive). }
  destruct (transactions s !! wh_transaction_id webhook) as [t0|] eqn:Htx.
  - destruct (handleWebhook rt webhook env s) as [r s'] eqn:Hrun.
    destruct (handleWebhook_processed rt _ _ _ _ _ _ Hlive Htx Hrun) as (_ & Hst & _).
    simpl in *. rewrite Hst.
    destruct (is_ok r); [by rewrite lookup_insert_ne|by rewrite lookup_delete_ne].
  - rewrite (handleWebhook_unknown _ _ _ _ Hlive Htx). simpl.
    by rewrite lookup_delete_ne.
Qed.



(** A delivery that returns normally leaves a ledger record under the
    transaction id: the live one it found, or the one it wrote. *)
Lemma handleWebhook_ok_record webhook env s s' :
  handleWebhook rt webhook env s = (Ok tt, s') →
  ∃ record, store s' !! wh_transaction_id webhook = Some record
    ∧ (ledger_live (wh_transaction_id webhook) (at_check env) s = true →
       s' = s ∧ date_ltb (expiresAt record) (ValidDate (at_check env)) = false)
    ∧ (ledger_live (wh_transaction_id webhook) (at_check env) s = false →
       record = ledger_record rt webhook env).
Proof.
  intros Hrun.
  destruct (ledger_live (wh_transaction_id webhook) (at_check env) s) eqn:Hlive.
  - rewrite (handleWebhook_live _ _ _ _ Hlive) in Hrun. injection Hrun as <-.
    unfold ledger_live in Hlive.
    destruct (store s !! wh_transaction_id webhook) as [record|]; [|done].
    exists record. split_and!; [done| |done].
    intros _. split; [done|]. by apply negb_true_iff in Hlive.
  - destruct (transactions s !! wh_transaction_id webhook) as [t0|] eqn:Htx.
    + destruct (handleWebhook_processed rt _ _ _ _ _ _ Hlive Htx Hrun) as (_ & Hst & _).
      exists (ledger_record rt webhook env). simpl in Hst.
      split_and!; [|done|done]. rewrite Hst. apply lookup_insert_eq.
    + by rewrite (handleWebhook_unknown _ _ _ _ Hlive Htx) in Hrun.
Qed.

End Deliveries.

(** ** Terminal records and repeated deliveries *)

(** C1 (as the code has it).  For a record in a terminal state, a further
    webhook delivery for it leaves the record and everything else as it
    is and returns normally, with nothing sent, as long as the ledger
    still holds an unexpired record under the transaction id. *)
Theorem terminal_record_noop_while_ledger_live rt webhook env s t :
  transactions s !! wh_transaction_id webhook = Some t →
  terminal (tx_status t) = true →
  ledger_live (wh_transaction_id webhook) (at_check env) s = true →
  handleWebhook rt webhook env s = (Ok tt, s)
  ∧ transactions (handleWebhook rt webhook env s).2 !! wh_transaction_id webhook = Some t
  ∧ new_events s (handleWebhook rt webhook env s).2 = [].
Proof.
  intros Htx _ Hlive. rewrite (handleWebhook_live _ _ _ _ Hlive). simpl.
  split_and!; [done|done|apply new_events_same].
Qed.

Lemma terminal_record_noop_while_ledger_live_witness :
  (∃ t, transactions Scenario.settled !! Scenario.txn = Some t
        ∧ terminal (tx_status t) = true)
  ∧ ledger_live Scenario.txn 5000 Scenario.settled = true
  ∧ handleWebhook Scenario.rt (Scenario.webhook wh_failed) (Scenario.wenv 5000 true)
      Scenario.settled = (Ok tt, Scenario.settled).
Proof.
  destruct (transactions Scenario.settled !! Scenario.txn) as [t|] eqn:Ht;
    [|by vm_compute in Ht].
  assert (terminal (tx_status t) = true) as Hterm.
  { vm_compute in Ht. injection Ht as <-. reflexivity. }
  split; [by exists t|]. split; [reflexivity|].
  apply (terminal_record_noop_while_ledger_live Scenario.rt
           (Scenario.webhook wh_failed) (Scenario.wenv 5000 true)
           Scenario.settled t Ht Hterm).
  reflexivity.
Defined.

(** C1, the claim as written fails: the payment of the scenario is
    completed and notified; a failed webhook for the same transaction
    that arrives after the ledger record has expired is processed again,
    moves the record from [completed] to [failed] and invokes the
    Notifier a second time. *)
Lemma terminal_record_overwritten_after_expiry :
  let late := Scenario.wenv (2004 + Scenario.day + 1) true in
  let after := (handleWebhook Scenario.rt (Scenario.webhook wh_failed) late
                  Scenario.settled).2 in
  tx_status <$> (transactions Scenario.settled !! Scenario.txn) = Some completed
  ∧ notify_count Scenario.settled = 1%nat
  ∧ tx_status <$> (transactions after !! Scenario.txn) = Some failed
  ∧ notify_count after = 2%nat.
Proof. by vm_compute. Qed.




(** ** The ledger write and the Notifier *)

(** What a delivery appends to the trace, in each of its three cases. *)
Lemma handleWebhook_new_events rt webhook env s :
  let r := (handleWebhook rt webhook env s).1 in
  let s' := (handleWebhook rt webhook env s).2 in
  let id := wh_transaction_id webhook in
  (new_events s s' = [] ∧ (ledger_live id (at_check env) s = false → ∃ e, r = Throw e))
  ∨ (r = Ok tt ∧ new_events s s' = [EvLedgerSet id]
     ∧ wh_status webhook = wh_pending)
  ∨ ∃ p (δn : list Event), Forall (transport_event p) δn
      ∧ ((r = Ok tt
          ∧ (∃ δ' : list Event, δn = (δ' ++ [EvPaymentPost p true])%list)
          ∧ new_events s s' = (EvNotify p :: δn ++ [EvLedgerSet id])%list)
         ∨ ((∃ e, r = Throw e) ∧ (EvPaymentPost p true ∉ δn)
            ∧ new_events s s' = EvNotify p :: δn
            ∧ store s' !! id = None)).
Proof.
  intros r s' id. subst r s' id.
  destruct (ledger_live (wh_transaction_id webhook) (at_check env) s) eqn:Hlive.
  { left. rewrite (handleWebhook_live _ _ _ _ Hlive). simpl.
    split; [apply new_events_same|done]. }
  destruct (transactions s !! wh_transaction_id webhook) as [t0|] eqn:Htx.
  - destruct (handleWebhook rt webhook env s) as [r s'] eqn:Hrun.
    destruct (handleWebhook_processed rt _ _ _ _ _ _ Hlive Htx Hrun)
      as (_ & Hst & δ & Hev & Hδ).
    simpl in *. rewrite (new_events_app _ _ _ Hev).
    unfold notification_of in Hδ.
    destruct (wh_status webhook) eqn:Hws.
    3: { right. left. by destruct Hδ as [-> ->]. }
    all: right; right;
      destruct Hδ as (δn & Hδn & [(-> & Hlast & ->)|((e & ->) & Hno & ->)]);
      eexists _, δn; (split; [exact Hδn|]);
      [ left; by split_and!
      | right; split_and!; [by exists e|done|done|];
        rewrite Hst; apply lookup_delete_eq ].
  - left. rewrite (handleWebhook_unknown _ _ _ _ Hlive Htx). simpl.
    split; [|by eexists]. apply new_events_app. simpl. by rewrite app_nil_r.
Qed.

(** A delivery only appends to the trace. *)
Lemma handleWebhook_events rt webhook env s :
  events (handleWebhook rt webhook env s).2
  = (events s ++ new_events s (handleWebhook rt webhook env s).2)%list.
Proof.
  destruct (ledger_live (wh_transaction_id webhook) (at_check env) s) eqn:Hlive.
  { rewrite (handleWebhook_live _ _ _ _ Hlive). simpl.
    by rewrite new_events_same, app_nil_r. }
  destruct (transactions s !! wh_transaction_id webhook) as [t0|] eqn:Htx.
  - destruct (handleWebhook rt webhook env s) as [r s'] eqn:Hrun.
    destruct (handleWebhook_processed rt _ _ _ _ _ _ Hlive Htx Hrun)
      as (_ & _ & δ & Hev & _).
    simpl. by rewrite (new_events_app _ _ _ Hev).
  - rewrite (handleWebhook_unknown _ _ _ _ Hlive Htx). simpl.
    rewrite (new_events_app _ _ []); simpl; by rewrite app_nil_r.
Qed.






(** ** The amount of the settlement update *)




(** ** Pending deliveries *)

(** A pending delivery never touches the credential. *)
Lemma handleWebhook_pending_credential rt webhook env s :
  wh_status webhook = wh_pending →
  accessToken (handleWebhook rt webhook env s).2 = accessToken s
  ∧ tokenExpiry (handleWebhook rt webhook env s).2 = tokenExpiry s.
Proof.
  intros Hst. svc_unfold. rewrite Hst. simpl.
  destruct (store s !! wh_transaction_id webhook) as [record|]; simpl;
    [destruct (date_ltb (expiresAt record) (ValidDate (at_check env))); simpl|];
    try done;
    by destruct (transactions s !! wh_transaction_id webhook).
Qed.

(** C3 (as the code has it).  A webhook delivery whose outcome is pending
    never invokes the Notifier and sends nothing upstream; it leaves the
    credential alone, keeps every transaction record, changes at most the
    status and the update time of the record it refers to, and changes
    the ledger at most under its own transaction id, the only event it
    can add being that ledger write; and while the ledger holds an
    unexpired record under the transaction id it returns normally and
    changes nothing at all. *)
Theorem pending_webhook_effects rt webhook env s :
  wh_status webhook = wh_pending →
  let r := (handleWebhook rt webhook env s).1 in
  let s' := (handleWebhook rt webhook env s).2 in
  let id := wh_transaction_id webhook in
  notifier_invocations s' = notifier_invocations s
  ∧ (new_events s s' = [] ∨ new_events s s' = [EvLedgerSet id])
  ∧ accessToken s' = accessToken s ∧ tokenExpiry s' = tokenExpiry s
  ∧ (∀ k, match transactions s !! k with
          | Some t => ∃ t', transactions s' !! k = Some t' ∧ same_payment t t'
                            ∧ (k ≠ id → t' = t)
          | None => transactions s' !! k = None
          end)
  ∧ (∀ k, k ≠ id → store s' !! k = store s !! k)
  ∧ (ledger_live id (at_check env) s = true → r = Ok tt ∧ s' = s).
Proof.
  intros Hst r s' id. subst r s' id.
  assert (new_events s (handleWebhook rt webhook env s).2 = []
          ∨ new_events s (handleWebhook rt webhook env s).2
            = [EvLedgerSet (wh_transaction_id webhook)]) as Hev.
  { destruct (handleWebhook_new_events rt webhook env s)
      as [[H _]|[(_ & H & _)|(p & δn & _ & Hcase)]]; [by left|by right|].
    exfalso.
    destruct (ledger_live (wh_transaction_id webhook) (at_check env) s) eqn:Hlive.
    - rewrite (handleWebhook_live _ _ _ _ Hlive) in Hcase. simpl in Hcase.
      rewrite new_events_same in Hcase.
      by destruct Hcase as [(_ & _ & ?)|(_ & _ & ? & _)].
    - destruct (transactions s !! wh_transaction_id webhook) as [t0|] eqn:Htx.
      + destruct (handleWebhook rt webhook env s) as [r s'] eqn:Hrun.
        destruct (handleWebhook_processed rt _ _ _ _ _ _ Hlive Htx Hrun)
          as (_ & _ & δ & Hev & Hδ).
        unfold notification_of in Hδ. rewrite Hst in Hδ. destruct Hδ as [_ ->].
        simpl in Hcase. rewrite (new_events_app _ _ _ Hev) in Hcase.
        by destruct Hcase as [(_ & _ & ?)|(_ & _ & ? & _)].
      + rewrite (handleWebhook_unknown _ _ _ _ Hlive Htx) in Hcase. simpl in Hcase.
        rewrite (new_events_app _ _ []) in Hcase by (simpl; by rewrite app_nil_r).
        by destruct Hcase as [(_ & _ & ?)|(_ & _ & ? & _)]. }
  split_and!.
  - rewrite (notifier_invocations_app _ _ _ (handleWebhook_events rt webhook env s)).
    destruct Hev as [-> | ->]; simpl; by rewrite app_nil_r.
  - exact Hev.
  - by apply handleWebhook_pending_credential.
  - by apply handleWebhook_pending_credential.
  - intros k. apply handleWebhook_transactions.
  - intros k Hk. by apply handleWebhook_store_other.
  - intros Hlive. by rewrite (handleWebhook_live _ _ _ _ Hlive).
Qed.

Lemma pending_webhook_effects_witness :
  let s' := (handleWebhook Scenario.rt (Scenario.webhook wh_pending)
               (Scenario.wenv 2000 true) Scenario.initiated).2 in
  wh_status (Scenario.webhook wh_pending) = wh_pending
  ∧ notifier_invocations s' = notifier_invocations Scenario.initiated
  ∧ (new_events Scenario.initiated s' = []
     ∨ new_events Scenario.initiated s' = [EvLedgerSet Scenario.txn]).
Proof.
  intros s'. split; [reflexivity|].
  destruct (pending_webhook_effects Scenario.rt (Scenario.webhook wh_pending)
              (Scenario.wenv 2000 true) Scenario.initiated eq_refl)
    as (Hinv & Hev & _).
  split; [exact Hinv|exact Hev].
Defined.

(** C3, the claim as written fails: the pending webhook of the scenario,
    delivered right after initiation, changes the update time of the
    record and writes a ledger record, after which the completed webhook
    for the same payment is skipped; delivered for the settled payment
    once its ledger record has expired, it moves the record from
    [completed] back to [pending]. *)
Lemma pending_webhook_changes_state :
  let s1 := (handleWebhook Scenario.rt (Scenario.webhook wh_pending)
               (Scenario.wenv 2000 true) Scenario.initiated).2 in
  let s2 := (handleWebhook Scenario.rt (Scenario.webhook wh_completed)
               (Scenario.wenv 9000 true) s1).2 in
  let s3 := (handleWebhook Scenario.rt (Scenario.webhook wh_pending)
               (Scenario.wenv (2004 + Scenario.day + 1) true) Scenario.settled).2 in
  store Scenario.initiated !! Scenario.txn = None
  ∧ expiresAt <$> (store s1 !! Scenario.txn) = Some (ValidDate (2004 + Scenario.day))
  ∧ updatedAt <$> (transactions Scenario.initiated !! Scenario.txn) = Some 1201
  ∧ updatedAt <$> (transactions s1 !! Scenario.txn) = Some 2001
  ∧ s1 ≠ Scenario.initiated
  ∧ s2 = s1 ∧ notify_count s2 = 0%nat
  ∧ tx_status <$> (transactions Scenario.settled !! Scenario.txn) = Some completed
  ∧ tx_status <$> (transactions s3 !! Scenario.txn) = Some pending.
Proof.
  intros s1 s2 s3.
  assert (events s1 ≠ events Scenario.initiated) as Hne by (by vm_compute).
  split_and!; try reflexivity.
  intros Heq. apply Hne. by rewrite Heq.
Qed.

(** ** The same webhook delivered again and again *)

(** While the ledger record under the transaction id is unexpired, any
    number of deliveries return normally and change nothing. *)
Lemma deliver_live rt webhook envs s record :
  store s !! wh_transaction_id webhook = Some record →
  Forall (λ e, date_ltb (expiresAt record) (ValidDate (at_check e)) = false) envs →
  deliver rt webhook envs s = (replicate (length envs) (Ok tt), s).
Proof.
  intros Hrec Hall. unfold deliver.
  induction Hall as [|env envs Hle _ IH]; [done|].
  simpl. rewrite handleWebhook_live, IH; [done|].
  unfold ledger_live. by rewrite Hrec, Hle.
Qed.

(** C2 (as the code has it).  A webhook with outcome completed or failed
    whose first delivery finds no unexpired ledger record and returns
    normally (the transaction is known and the Notifier call succeeds),
    delivered N times in sequence, N at least 1, every later delivery
    reading the clock before the date stored as the expiry of the
    ledger record the first delivery wrote has passed, invokes the
    Notifier exactly once; every delivery returns normally, and every
    delivery after the first leaves the whole state, registry and ledger
    included, as the first left it. *)
Theorem repeated_delivery_notifies_once rt webhook env envs s :
  ledger_live (wh_transaction_id webhook) (at_check env) s = false →
  wh_status webhook ≠ wh_pending →
  (handleWebhook rt webhook env s).1 = Ok tt →
  Forall (λ e, date_ltb (expiresAt (ledger_record rt webhook env))
                 (ValidDate (at_check e)) = false) envs →
  let s1 := (handleWebhook rt webhook env s).2 in
  let run := deliver rt webhook (env :: envs) s in
  store s1 !! wh_transaction_id webhook = Some (ledger_record rt webhook env)
  ∧ notify_count run.2 = S (notify_count s)
  ∧ run.1 = replicate (S (length envs)) (Ok tt)
  ∧ run.2 = s1
  ∧ deliver rt webhook envs s1 = (replicate (length envs) (Ok tt), s1).
Proof.
  intros Hdead Hst Hok Hall s1 run. subst s1 run.
  destruct (handleWebhook rt webhook env s) as [r s1] eqn:Hrun.
  simpl in Hok. subst r.
  destruct (handleWebhook_ok_record rt _ _ _ _ Hrun) as (record & Hrec & _ & Hnew).
  specialize (Hnew Hdead). subst record.
  assert (deliver rt webhook envs s1 = (replicate (length envs) (Ok tt), s1)) as Hrest.
  { by apply (deliver_live rt webhook envs s1 _ Hrec). }
  unfold deliver in *. simpl. rewrite Hrun, Hrest. simpl.
  split_and!; [done| |done..].
  destruct (transactions s !! wh_transaction_id webhook) as [t0|] eqn:Htx.
  - pose proof (handleWebhook_processed_invocations rt _ _ _ t0 Hdead Htx) as Hinv.
    rewrite Hrun in Hinv. simpl in Hinv.
    unfold notify_count. rewrite Hinv, length_app.
    unfold notification_of. destruct (wh_status webhook); simpl; [lia|lia|done].
  - by rewrite (handleWebhook_unknown _ _ _ _ Hdead Htx) in Hrun.
Qed.

Lemma repeated_delivery_notifies_once_witness :
  let envs := [Scenario.wenv 3000 true; Scenario.wenv 4000 false;
               Scenario.wenv (2004 + Scenario.day) true] in
  let run := deliver Scenario.rt (Scenario.webhook wh_completed)
               (Scenario.wenv 2000 true :: envs) Scenario.initiated in
  ledger_live Scenario.txn 2000 Scenario.initiated = false
  ∧ notify_count Scenario.initiated = 0%nat
  ∧ notify_count run.2 = 1%nat
  ∧ run.1 = [Ok tt; Ok tt; Ok tt; Ok tt]
  ∧ run.2 = Scenario.settled.
Proof.
  intros envs run. split; [reflexivity|]. split; [reflexivity|].
  destruct (repeated_delivery_notifies_once Scenario.rt
              (Scenario.webhook wh_completed) (Scenario.wenv 2000 true) envs
              Scenario.initiated)
    as (_ & Hcount & Hrs & Hstate & _).
  - reflexivity.
  - discriminate.
  - reflexivity.
  - repeat constructor; by vm_compute.
  - split; [exact Hcount|]. split; [exact Hrs|exact Hstate].
Defined.

(** C2, the claim as written fails, in three ways.  A pending webhook
    delivered once invokes the Notifier zero times.  A completed webhook
    whose first Notifier call fails is processed again at the second
    delivery: two invocations.  A completed webhook delivered a second
    time after its ledger record has expired is processed again: two
    invocations, and the second delivery writes the registry and the
    ledger. *)
Lemma repeated_delivery_not_always_once :
  let hook := Scenario.webhook wh_completed in
  let once_pending :=
    deliver Scenario.rt (Scenario.webhook wh_pending)
      [Scenario.wenv 2000 true] Scenario.initiated in
  let retry :=
    deliver Scenario.rt hook
      [Scenario.wenv 2000 false; Scenario.wenv 3000 true] Scenario.initiated in
  let late :=
    deliver Scenario.rt hook
      [Scenario.wenv 2000 true; Scenario.wenv (2004 + Scenario.day + 1) true]
      Scenario.initiated in
  notify_count Scenario.initiated = 0%nat
  ∧ (once_pending.1 = [Ok tt] ∧ notify_count once_pending.2 = 0%nat)
  ∧ (retry.1 = [Throw "Failed to notify ASPIn of payment status"; Ok tt]
     ∧ notify_count retry.2 = 2%nat)
  ∧ (late.1 = [Ok tt; Ok tt] ∧ notify_count late.2 = 2%nat
     ∧ late.2 ≠ Scenario.settled).
Proof.
  intros hook once_pending retry late.
  assert (events late.2 ≠ events Scenario.settled) as Hne by (by vm_compute).
  split_and!; try reflexivity.
  intros Heq. apply Hne. by rewrite Heq.
Qed.

(** ** The credential cache *)

Lemma absent_or_expired_miss now s :
  absent_or_expired now s → cached_token now s = None.
Proof.
  unfold absent_or_expired, cached_token.
  destruct (accessToken s) as [tok|], (tokenExpiry s) as [expiry|]; try done.
  intros Hle. by rewrite Hle, andb_false_r.
Qed.

(** A caller that misses the cache issues its own token request and
    leaves the cache as it found it. *)
Lemma getAccessToken_start_miss now s :
  cached_token now s = None →
  getAccessToken_start now s = (Ok AwaitingAuth, emit EvAuthPost s).
Proof. intros H. svc_unfold. by rewrite H. Qed.

Lemma auth_calls_emit_auth s : auth_calls (emit EvAuthPost s) = S (auth_calls s).
Proof.
  unfold auth_calls. simpl. rewrite omap_app, length_app. simpl. lia.
Qed.

(** Each reply is handed to the caller it belongs to. *)
Lemma resume_callers_results rt replies s :
  (resume_callers rt replies s).1 =
    map (λ rn, match rn.1 with
               | Some tokenData => Ok (access_token tokenData)
               | None => Throw "Failed to authenticate with ASPIn"
               end) replies.
Proof.
  revert s. induction replies as [|[reply now] replies IH]; intros s; [done|].
  simpl. destruct reply as [tokenData|]; svc_unfold; simpl.
  - specialize (IH (set_credential (Some (access_token tokenData))
                      (Some (addSeconds rt now (expires_in tokenData - 60))) s)).
    destruct (resume_callers rt replies _) as [rs s2]. simpl in *. by rewrite IH.
  - specialize (IH s). destruct (resume_callers rt replies s) as [rs s2].
    simpl in *. by rewrite IH.
Qed.

(** C9 (as the code has it).  The cache has no single-flight: when N
    callers enter [getAccessToken] while the cached credential is absent
    or expired, each of them issues its own re-authentication request, N
    requests in all; every caller is left waiting for its own reply, and
    when the replies arrive each caller returns the token of its own
    reply (or fails with its own failure), none reusing another's. *)
Theorem concurrent_callers_each_authenticate rt times replies s :
  Forall (λ now, absent_or_expired now s) times →
  let started := start_callers times s in
  auth_calls started.2 = (auth_calls s + length times)%nat
  ∧ started.1 = replicate (length times) (Ok AwaitingAuth)
  ∧ accessToken started.2 = accessToken s
  ∧ tokenExpiry started.2 = tokenExpiry s
  ∧ (resume_callers rt replies started.2).1 =
      map (λ rn, match rn.1 with
                 | Some tokenData => Ok (access_token tokenData)
                 | None => Throw "Failed to authenticate with ASPIn"
                 end) replies.
Proof.
  intros Hall started. subst started.
  split_and!; [| | | |apply resume_callers_results].
  all: revert s Hall; induction times as [|now times IH]; intros s Hall; simpl;
    [done || (by rewrite Nat.add_0_r)|];
    apply Forall_cons in Hall as [Hnow Hall];
    rewrite (getAccessToken_start_miss _ _ (absent_or_expired_miss _ _ Hnow));
    assert (Forall (λ now0, absent_or_expired now0 (emit EvAuthPost s)) times) as Hall'
      by exact Hall;
    specialize (IH _ Hall');
    destruct (start_callers times (emit EvAuthPost s)) as [cs s2]; simpl in *.
  - rewrite IH, auth_calls_emit_auth. lia.
  - by rewrite IH.
  - by rewrite IH.
  - by rewrite IH.
Qed.

Lemma concurrent_callers_each_authenticate_witness :
  let started := start_callers [5000; 5000; 5001] initial_state in
  Forall (λ now, absent_or_expired now initial_state) [5000; 5000; 5001]
  ∧ auth_calls started.2 = 3%nat
  ∧ started.1 = [Ok AwaitingAuth; Ok AwaitingAuth; Ok AwaitingAuth].
Proof.
  intros started.
  assert (Forall (λ now, absent_or_expired now initial_state) [5000; 5000; 5001])
    as Hall by (repeat constructor).
  split; [exact Hall|].
  destruct (concurrent_callers_each_authenticate Scenario.rt [5000; 5000; 5001] []
              initial_state Hall)
    as (Hcalls & Hres & _).
  split; [exact Hcalls|exact Hres].
Defined.

(** C9, the claim as written fails: two callers that enter while no
    credential is cached send two re-authentication requests, and so do
    two callers that enter after the cached credential has expired; the
    second caller gets the token of its own reply, not the first's. *)
Lemma two_concurrent_callers_authenticate_twice :
  let fresh := start_callers [5000; 5000] initial_state in
  let stale := set_credential (Some "old") (Some (ValidDate 4000)) initial_state in
  let expired := start_callers [5000; 5000] stale in
  let other := {| access_token := "second"; token_type := "bearer";
                  refresh_token := "cmVmcmVzaA"; expires_in := 3600;
                  scope := "all"; user_client_name := "demo";
                  user_guid := "u-1"; user_fullname := "Test Admin";
                  user_partners := [] |} in
  auth_calls initial_state = 0%nat
  ∧ auth_calls fresh.2 = 2%nat
  ∧ auth_calls expired.2 = 2%nat
  ∧ auth_calls fresh.2 ≠ 1%nat
  ∧ (resume_callers Scenario.rt [(Some Scenario.token, 5200); (Some other, 5300)] fresh.2).1
    = [Ok "eyJhbGciOi"; Ok "second"].
Proof. by vm_compute. Qed.

(** * Further properties of the services *)

(** ** The ledger as a store with expiry *)

(** X1.  [set] stores the response under the key with the expiry
    [addSeconds now ttl], the date [setSeconds] leaves.  [get] returns
    that response unchanged, without changing the state, at every
    reading of the clock the stored expiry is not before; once the
    expiry is before the reading [get] returns nothing and the record is
    gone.  An Invalid Date as expiry is never before any reading, so
    such a record is returned for ever.  Where [setSeconds] added
    exactly [ttl] elapsed seconds the window is the [ttl] seconds after
    the write, and with a negative [ttl] the record is never
    returned. *)
Theorem idempotency_set_get_roundtrip rt k resp now now' s :
  let s1 := (idempotency_set rt k resp now s).2 in
  let expiry := addSeconds rt now (ttl rt) in
  store s1 !! k = Some {| key := k; response := resp; expiresAt := expiry |}
  ∧ (date_ltb expiry (ValidDate now') = false →
     idempotency_get k now' s1 = (Ok (Some resp), s1))
  ∧ (date_ltb expiry (ValidDate now') = true →
     (idempotency_get k now' s1).1 = Ok None
     ∧ store (idempotency_get k now' s1).2 = delete k (store s))
  ∧ (expiry = InvalidDate →
     idempotency_get k now' s1 = (Ok (Some resp), s1))
  ∧ (expiry = ValidDate (now + 1000 * ttl rt) →
     (now' ≤ now + 1000 * ttl rt →
        idempotency_get k now' s1 = (Ok (Some resp), s1))
     ∧ (now + 1000 * ttl rt < now' →
        (idempotency_get k now' s1).1 = Ok None
        ∧ store (idempotency_get k now' s1).2 = delete k (store s))
     ∧ (ttl rt < 0 → now ≤ now' →
        (idempotency_get k now' s1).1 = Ok None)).
Proof.
  intros s1 expiry. subst s1 expiry.
  assert (∀ b, date_ltb (addSeconds rt now (ttl rt)) (ValidDate now') = b →
    idempotency_get k now' (idempotency_set rt k resp now s).2 =
      if b then (Ok None,
                 set_store (delete k (store (idempotency_set rt k resp now s).2))
                   (idempotency_set rt k resp now s).2)
      else (Ok (Some resp), (idempotency_set rt k resp now s).2)) as Hget.
  { intros b Hb. svc_unfold. simpl. rewrite lookup_insert_eq. simpl.
    rewrite Hb. by destruct b. }
  assert (date_ltb (addSeconds rt now (ttl rt)) (ValidDate now') = true →
          (idempotency_get k now' (idempotency_set rt k resp now s).2).1 = Ok None
          ∧ store (idempotency_get k now' (idempotency_set rt k resp now s).2).2
            = delete k (store s)) as Hmiss.
  { intros Hlt. rewrite (Hget true Hlt). simpl.
    split; [done|]. svc_unfold. simpl. apply delete_insert_eq. }
  split_and!.
  - svc_unfold. simpl. apply lookup_insert_eq.
  - intros Hlive. by rewrite (Hget false).
  - exact Hmiss.
  - intros Hinv. rewrite (Hget false); [done|]. by rewrite Hinv.
  - intros Hsecs. split_and!.
    + intros Hle. rewrite (Hget false); [done|].
      rewrite Hsecs. simpl. apply Z.ltb_ge. lia.
    + intros Hlt. apply Hmiss. rewrite Hsecs. simpl. apply Z.ltb_lt. lia.
    + intros Hneg Hle. apply Hmiss. rewrite Hsecs. simpl. apply Z.ltb_lt. lia.
Qed.

Lemma idempotency_set_get_roundtrip_witness :
  let resp := response (ledger_record Scenario.rt
                (Scenario.webhook wh_completed) (Scenario.wenv 2000 true)) in
  let s1 := (idempotency_set Scenario.rt "k" resp 5000 initial_state).2 in
  date_ltb (addSeconds Scenario.rt 5000 (ttl Scenario.rt))
    (ValidDate (5000 + Scenario.day)) = false
  ∧ (idempotency_get "k" (5000 + Scenario.day) s1).1 = Ok (Some resp)
  ∧ date_ltb (addSeconds Scenario.rt 5000 (ttl Scenario.rt))
      (ValidDate (5001 + Scenario.day)) = true
  ∧ (idempotency_get "k" (5001 + Scenario.day) s1).1 = Ok None
  ∧ addSeconds Scenario.rt 5000 (ttl Scenario.rt)
    = ValidDate (5000 + 1000 * ttl Scenario.rt)
  ∧ 5000 + 1000 * ttl Scenario.rt < 5001 + Scenario.day.
Proof.
  intros resp s1. subst resp s1.
  destruct (idempotency_set_get_roundtrip Scenario.rt "k"
              (response (ledger_record Scenario.rt
                 (Scenario.webhook wh_completed) (Scenario.wenv 2000 true)))
              5000 (5000 + Scenario.day) initial_state) as (_ & Hhit & _).
  destruct (idempotency_set_get_roundtrip Scenario.rt "k"
              (response (ledger_record Scenario.rt
                 (Scenario.webhook wh_completed) (Scenario.wenv 2000 true)))
              5000 (5001 + Scenario.day) initial_state)
    as (_ & _ & Hmiss & _ & Hsecs).
  assert (date_ltb (addSeconds Scenario.rt 5000 (ttl Scenario.rt))
            (ValidDate (5000 + Scenario.day)) = false) as H1 by reflexivity.
  assert (date_ltb (addSeconds Scenario.rt 5000 (ttl Scenario.rt))
            (ValidDate (5001 + Scenario.day)) = true) as H2 by reflexivity.
  assert (addSeconds Scenario.rt 5000 (ttl Scenario.rt)
          = ValidDate (5000 + 1000 * ttl Scenario.rt)) as H3 by reflexivity.
  assert (5000 + 1000 * ttl Scenario.rt < 5001 + Scenario.day) as H4
    by reflexivity.
  split; [exact H1|]. split; [by rewrite (Hhit H1)|].
  split; [exact H2|]. split; [exact (proj1 (Hmiss H2))|].
  split; [exact H3|].
  destruct (Hsecs H3) as (_ & Hlate & _). pose proof (Hlate H4) as _.
  exact H4.
Defined.

(** X2.  [get] on an expired record returns nothing and deletes that
    record and no other: the store shrinks by one, every other key keeps
    its record, and nothing else in the state changes. *)
Theorem idempotency_get_expired_deletes k now s record :
  store s !! k = Some record →
  date_ltb (expiresAt record) (ValidDate now) = true →
  let s' := (idempotency_get k now s).2 in
  (idempotency_get k now s).1 = Ok None
  ∧ store s' = delete k (store s)
  ∧ S (size (store s')) = size (store s)
  ∧ (∀ k', k' ≠ k → store s' !! k' = store s !! k')
  ∧ transactions s' = transactions s ∧ events s' = events s
  ∧ accessToken s' = accessToken s ∧ tokenExpiry s' = tokenExpiry s.
Proof.
  intros Hk Hexp s'. subst s'. svc_unfold. simpl. rewrite Hk.
  rewrite Hexp. simpl.
  split_and!; try done.
  - rewrite <- (insert_delete_id (store s) k record Hk) at 2.
    rewrite map_size_insert_None; [done|]. apply lookup_delete_eq.
  - intros k' Hne. by apply lookup_delete_ne.
Qed.

Lemma idempotency_get_expired_deletes_witness :
  ∃ record,
    store Scenario.settled !! Scenario.txn = Some record
    ∧ date_ltb (expiresAt record) (ValidDate (2005 + Scenario.day)) = true
    ∧ (idempotency_get Scenario.txn (2005 + Scenario.day) Scenario.settled).1 = Ok None
    ∧ size (store (idempotency_get Scenario.txn (2005 + Scenario.day)
                     Scenario.settled).2) = 0%nat.
Proof.
  exists (ledger_record Scenario.rt (Scenario.webhook wh_completed)
            (Scenario.wenv 2000 true)).
  assert (store Scenario.settled !! Scenario.txn
          = Some (ledger_record Scenario.rt (Scenario.webhook wh_completed)
                    (Scenario.wenv 2000 true))) as Hk by reflexivity.
  assert (date_ltb (expiresAt (ledger_record Scenario.rt
                                 (Scenario.webhook wh_completed)
                                 (Scenario.wenv 2000 true)))
            (ValidDate (2005 + Scenario.day)) = true) as Hexp
    by reflexivity.
  destruct (idempotency_get_expired_deletes Scenario.txn (2005 + Scenario.day)
              Scenario.settled _ Hk Hexp) as (Hres & _ & Hsize & _).
  split; [exact Hk|]. split; [exact Hexp|]. split; [exact Hres|].
  assert (size (store Scenario.settled) = 1%nat) as Hone by (vm_compute; reflexivity).
  rewrite Hone in Hsize. clear -Hsize. lia.
Defined.

(** X3.  [exists] and [get] agree: on every key, clock and state they
    leave the same state behind, and [exists] answers true exactly when
    [get] returns a response. *)
Theorem idempotency_exists_agrees_with_get k now s :
  (idempotency_exists k now s).2 = (idempotency_get k now s).2
  ∧ (idempotency_exists k now s).1
    = Ok (match (idempotency_get k now s).1 with
          | Ok (Some _) => true
          | _ => false
          end).
Proof.
  unfold idempotency_exists. svc_unfold. simpl.
  destruct (store s !! k) as [record|]; [|done].
  by destruct (date_ltb (expiresAt record) (ValidDate now)).
Qed.

(** What [get] returns, read off the store. *)
Lemma idempotency_get_result k now s :
  (idempotency_get k now s).1
  = Ok (match store s !! k with
        | Some record =>
            if date_ltb (expiresAt record) (ValidDate now) then None
            else Some (response record)
        | None => None
        end).
Proof.
  svc_unfold. simpl. destruct (store s !! k) as [record|]; [|done].
  by destruct (date_ltb (expiresAt record) (ValidDate now)).
Qed.

(** X4.  The hourly [cleanup] cannot be told from outside: it keeps
    exactly the records that have not expired at its reading of the
    clock, so the store never grows, every survivor is unexpired, and
    every [get] at the same or a later reading returns what it would
    have returned without the cleanup. *)
Theorem idempotency_cleanup_invisible now now' k s :
  now ≤ now' →
  let s' := (idempotency_cleanup now s).2 in
  (idempotency_get k now' s').1 = (idempotency_get k now' s).1
  ∧ (∀ k' record, store s' !! k' = Some record →
       store s !! k' = Some record
       ∧ date_ltb (expiresAt record) (ValidDate now) = false)
  ∧ (∀ k' record, store s !! k' = Some record →
       date_ltb (expiresAt record) (ValidDate now) = false →
       store s' !! k' = Some record)
  ∧ (size (store s') ≤ size (store s))%nat
  ∧ transactions s' = transactions s ∧ events s' = events s.
Proof.
  intros Hle s'. subst s'.
  assert (∀ k', store (idempotency_cleanup now s).2 !! k'
                = match store s !! k' with
                  | Some record =>
                      if date_ltb (expiresAt record) (ValidDate now) then None
                      else Some record
                  | None => None
                  end) as Hlook.
  { intros k'. svc_unfold. simpl. rewrite map_lookup_filter.
    destruct (store s !! k') as [record|]; simpl; [|done].
    destruct (date_ltb (expiresAt record) (ValidDate now)) eqn:Hlt.
    - by rewrite option_guard_False.
    - by rewrite option_guard_True. }
  split_and!.
  - rewrite !idempotency_get_result.
    rewrite Hlook. destruct (store s !! k) as [record|]; [|done].
    destruct (date_ltb (expiresAt record) (ValidDate now)) eqn:Hlt.
    + destruct (date_ltb (expiresAt record) (ValidDate now')) eqn:Hlt'; [done|].
      by rewrite (date_ltb_mono _ now now' Hle Hlt') in Hlt.
    + by destruct (date_ltb (expiresAt record) (ValidDate now')).
  - intros k' record. rewrite Hlook.
    destruct (store s !! k') as [r|]; [|done].
    destruct (date_ltb (expiresAt r) (ValidDate now)) eqn:Hlt; [done|].
    by intros [= <-].
  - intros k' record Hk' Hlive. by rewrite Hlook, Hk', Hlive.
  - svc_unfold. simpl. apply map_subseteq_size, map_filter_subseteq.
  - done.
  - done.
Qed.

Lemma idempotency_cleanup_invisible_witness :
  3600000 ≤ 3600001
  ∧ (idempotency_get Scenario.txn 3600001
       (idempotency_cleanup 3600000 Scenario.settled).2).1
    = (idempotency_get Scenario.txn 3600001 Scenario.settled).1.
Proof.
  assert (3600000 ≤ 3600001) as Hle by (vm_compute; discriminate).
  split; [exact Hle|].
  exact (proj1 (idempotency_cleanup_invisible 3600000 3600001 Scenario.txn
                  Scenario.settled Hle)).
Defined.

(** X5.  [set] overwrites: a second [set] under the same key replaces
    the record of the first, response and expiry alike, so the store is
    the one the second [set] alone would have made; the store grows by
    one for a new key and keeps its size for a key it already holds. *)
Theorem idempotency_set_last_write_wins rt k resp1 now1 resp2 now2 s :
  let s1 := (idempotency_set rt k resp1 now1 s).2 in
  let s2 := (idempotency_set rt k resp2 now2 s1).2 in
  store s2 = store (idempotency_set rt k resp2 now2 s).2
  ∧ store s2 !! k = Some {| key := k; response := resp2;
                            expiresAt := addSeconds rt now2 (ttl rt) |}
  ∧ size (store s2) = size (store s1)
  ∧ size (store s1) = (match store s !! k with
                       | Some _ => size (store s)
                       | None => S (size (store s))
                       end).
Proof.
  intros s1 s2. subst s1 s2. svc_unfold. simpl.
  split_and!.
  - apply insert_insert_eq.
  - apply lookup_insert_eq.
  - rewrite insert_insert_eq.
    destruct (store s !! k) as [r|] eqn:Hk.
    + rewrite !map_size_insert_Some; eauto.
    + by rewrite !map_size_insert_None.
  - destruct (store s !! k) as [r|] eqn:Hk.
    + by rewrite map_size_insert_Some.
    + by rewrite map_size_insert_None.
Qed.

(** ** The credential cache, one caller at a time *)

(** The state right after a token reply was stored at [t0]. *)
Lemma authenticate_resume_ok rt tokenData t0 s :
  authenticate_resume rt (Some tokenData) t0 s =
    (Ok (access_token tokenData),
     set_credential (Some (access_token tokenData))
       (Some (addSeconds rt t0 (expires_in tokenData - 60))) s).
Proof. by svc_unfold. Qed.

(** A caller that finds the token in the cache. *)
Lemma getAccessToken_hit rt t reply t' s tok :
  cached_token t s = Some tok →
  getAccessToken rt t reply t' s = (Ok tok, s).
Proof. intros Hc. svc_unfold. by rewrite Hc. Qed.

(** X6.  A token obtained by authentication is cached with the expiry
    [addSeconds t0 (expires_in - 60)], the date [setSeconds] leaves, and
    is served from the cache, with no request and no change of state, at
    every reading of the clock that is before that stored expiry,
    provided the token is not the empty string.  Where [setSeconds]
    added exactly the elapsed seconds, these are the readings before the
    lifetime less the 60 second buffer has passed. *)
Theorem getAccessToken_cached_until_buffer rt tokenData t0 t reply t' s :
  truthy (access_token tokenData) = true →
  let s1 := (authenticate_resume rt (Some tokenData) t0 s).2 in
  let expiry := addSeconds rt t0 (expires_in tokenData - 60) in
  tokenExpiry s1 = Some expiry
  ∧ (date_ltb (ValidDate t) expiry = true →
     getAccessToken rt t reply t' s1 = (Ok (access_token tokenData), s1)
     ∧ auth_calls (getAccessToken rt t reply t' s1).2 = auth_calls s1)
  ∧ (expiry = ValidDate (t0 + 1000 * (expires_in tokenData - 60)) →
     t < t0 + 1000 * (expires_in tokenData - 60) →
     getAccessToken rt t reply t' s1 = (Ok (access_token tokenData), s1)
     ∧ auth_calls (getAccessToken rt t reply t' s1).2 = auth_calls s1).
Proof.
  intros Htok s1 expiry. subst s1 expiry. rewrite authenticate_resume_ok. simpl.
  set (expiry := addSeconds rt t0 (expires_in tokenData - 60)).
  set (s1 := set_credential _ _ s).
  assert (date_ltb (ValidDate t) expiry = true →
          getAccessToken rt t reply t' s1 = (Ok (access_token tokenData), s1)
          ∧ auth_calls (getAccessToken rt t reply t' s1).2 = auth_calls s1) as Hhit.
  { intros Hlt.
    assert (cached_token t s1 = Some (access_token tokenData)) as Hc.
    { unfold cached_token. subst s1. cbn [accessToken tokenExpiry set_credential].
      by rewrite Htok, Hlt. }
    by rewrite (getAccessToken_hit rt t reply t' s1 _ Hc). }
  split; [done|]. split; [exact Hhit|].
  intros Hsecs Hlt. apply Hhit. rewrite Hsecs. simpl. apply Z.ltb_lt. lia.
Qed.

Lemma getAccessToken_cached_until_buffer_witness :
  let s1 := (authenticate_resume Scenario.rt (Some Scenario.token) 2003 initial_state).2 in
  truthy (access_token Scenario.token) = true
  ∧ date_ltb (ValidDate 3000000)
      (addSeconds Scenario.rt 2003 (expires_in Scenario.token - 60)) = true
  ∧ getAccessToken Scenario.rt 3000000 None 3000001 s1 = (Ok "eyJhbGciOi", s1).
Proof.
  intros s1.
  assert (truthy (access_token Scenario.token) = true) as H1 by reflexivity.
  assert (date_ltb (ValidDate 3000000)
            (addSeconds Scenario.rt 2003 (expires_in Scenario.token - 60)) = true)
    as H2 by reflexivity.
  destruct (getAccessToken_cached_until_buffer Scenario.rt Scenario.token 2003
              3000000 None 3000001 initial_state H1) as (_ & Hhit & _).
  split; [exact H1|]. split; [exact H2|]. exact (proj1 (Hhit H2)).
Defined.

(** X7.  When the reading of the clock is not before the stored expiry,
    and always for an empty token, the cache misses and the caller
    re-authenticates.  An Invalid Date as expiry, which [setSeconds]
    leaves for a lifetime out of the range of dates, is never after any
    reading, so such a token is never reused.  Where [setSeconds] added
    exactly the elapsed seconds, a token whose lifetime is at most 60
    seconds is never reused either: the very next call, at the same or a
    later reading of the clock, sends a new token request. *)
Theorem getAccessToken_refreshes_after_buffer rt tokenData t0 t reply t' s :
  let s1 := (authenticate_resume rt (Some tokenData) t0 s).2 in
  let expiry := addSeconds rt t0 (expires_in tokenData - 60) in
  (truthy (access_token tokenData) = false
   ∨ date_ltb (ValidDate t) expiry = false →
   auth_calls (getAccessToken rt t reply t' s1).2 = S (auth_calls s1))
  ∧ (expiry = InvalidDate →
     auth_calls (getAccessToken rt t reply t' s1).2 = S (auth_calls s1))
  ∧ (expiry = ValidDate (t0 + 1000 * (expires_in tokenData - 60)) →
     (t0 + 1000 * (expires_in tokenData - 60) ≤ t →
      auth_calls (getAccessToken rt t reply t' s1).2 = S (auth_calls s1))
     ∧ (expires_in tokenData ≤ 60 → t0 ≤ t →
        auth_calls (getAccessToken rt t reply t' s1).2 = S (auth_calls s1))).
Proof.
  intros s1 expiry. subst s1 expiry. rewrite authenticate_resume_ok. simpl.
  set (expiry := addSeconds rt t0 (expires_in tokenData - 60)).
  set (s1 := set_credential _ _ s).
  assert (truthy (access_token tokenData) = false
          ∨ date_ltb (ValidDate t) expiry = false →
          auth_calls (getAccessToken rt t reply t' s1).2 = S (auth_calls s1)) as Hmiss.
  { intros Hcond.
    assert (cached_token t s1 = None) as Hc.
    { unfold cached_token. subst s1. cbn [accessToken tokenExpiry set_credential].
      destruct Hcond as [-> | ->]; [done|]. by rewrite andb_false_r. }
    unfold getAccessToken, bind. rewrite (getAccessToken_start_miss _ _ Hc).
    rewrite <- auth_calls_emit_auth.
    destruct reply as [td|]; by svc_unfold. }
  split; [exact Hmiss|]. split.
  - intros Hinv. apply Hmiss. right. by rewrite Hinv.
  - intros Hsecs. split.
    + intros Hle. apply Hmiss. right. rewrite Hsecs. simpl.
      apply Z.ltb_ge. lia.
    + intros Hshort Hle. apply Hmiss. right. rewrite Hsecs. simpl.
      apply Z.ltb_ge. lia.
Qed.

Lemma getAccessToken_refreshes_after_buffer_witness :
  let short := {| access_token := "short"; token_type := "bearer";
                  refresh_token := "cmVmcmVzaA"; expires_in := 45;
                  scope := "all"; user_client_name := "demo";
                  user_guid := "u-1"; user_fullname := "Test Admin";
                  user_partners := [] |} in
  let s1 := (authenticate_resume Scenario.rt (Some short) 2003 initial_state).2 in
  date_ltb (ValidDate 2003)
    (addSeconds Scenario.rt 2003 (expires_in short - 60)) = false
  ∧ addSeconds Scenario.rt 2003 (expires_in short - 60)
    = ValidDate (2003 + 1000 * (expires_in short - 60))
  ∧ expires_in short ≤ 60 ∧ 2003 ≤ 2003
  ∧ auth_calls (getAccessToken Scenario.rt 2003 (Some short) 2004 s1).2 = S (auth_calls s1).
Proof.
  intros short s1.
  assert (date_ltb (ValidDate 2003)
            (addSeconds Scenario.rt 2003 (expires_in short - 60)) = false) as H0
    by reflexivity.
  assert (addSeconds Scenario.rt 2003 (expires_in short - 60)
          = ValidDate (2003 + 1000 * (expires_in short - 60))) as Hs
    by reflexivity.
  assert (expires_in short ≤ 60) as H1 by (vm_compute; discriminate).
  assert (2003 ≤ 2003) as H2 by (vm_compute; discriminate).
  destruct (getAccessToken_refreshes_after_buffer Scenario.rt short 2003 2003
              (Some short) 2004 initial_state) as (Hmiss & _ & Hsecs).
  pose proof (Hmiss (or_intror H0)) as _.
  split; [exact H0|]. split; [exact Hs|]. split; [exact H1|]. split; [exact H2|].
  exact (proj2 (Hsecs Hs) H1 H2).
Defined.

(** A caller that misses the cache and gets no token. *)
Lemma getAccessToken_miss_fail rt t t' s :
  cached_token t s = None →
  getAccessToken rt t None t' s
    = (Throw "Failed to authenticate with ASPIn", emit EvAuthPost s).
Proof.
  intros Hc. unfold getAccessToken, bind.
  rewrite (getAccessToken_start_miss _ _ Hc). by svc_unfold.
Qed.

(** X8.  A failed authentication throws the fixed message, has sent one
    token request, and leaves the cache exactly as it was, stale token
    included; nothing else in the state changes. *)
Theorem getAccessToken_failure_keeps_cache rt t t' s :
  cached_token t s = None →
  getAccessToken rt t None t' s
    = (Throw "Failed to authenticate with ASPIn", emit EvAuthPost s)
  ∧ accessToken (getAccessToken rt t None t' s).2 = accessToken s
  ∧ tokenExpiry (getAccessToken rt t None t' s).2 = tokenExpiry s.
Proof.
  intros Hc. by rewrite (getAccessToken_miss_fail rt _ _ _ Hc).
Qed.

Lemma getAccessToken_failure_keeps_cache_witness :
  let stale := set_credential (Some "old") (Some (ValidDate 4000)) initial_state in
  cached_token 5000 stale = None
  ∧ (getAccessToken Scenario.rt 5000 None 5001 stale).1 = Throw "Failed to authenticate with ASPIn"
  ∧ accessToken (getAccessToken Scenario.rt 5000 None 5001 stale).2 = Some "old".
Proof.
  intros stale.
  destruct (getAccessToken_failure_keeps_cache Scenario.rt 5000 5001 stale eq_refl)
    as (Hrun & Htok & _).
  split; [reflexivity|]. split; [by rewrite Hrun|exact Htok].
Defined.

(** X9.  [clearToken] forces re-authentication: whatever was cached and
    whatever the clock reads, the next [getAccessToken] sends a token
    request, and with a reply it returns and caches the token of that
    reply. *)
Theorem clearToken_forces_authentication rt t reply t' s :
  let s1 := (clearToken s).2 in
  auth_calls (getAccessToken rt t reply t' s1).2 = S (auth_calls s)
  ∧ (getAccessToken rt t reply t' s1).1
    = match reply with
      | Some tokenData => Ok (access_token tokenData)
      | None => Throw "Failed to authenticate with ASPIn"
      end
  ∧ accessToken (getAccessToken rt t reply t' s1).2 = access_token <$> reply.
Proof.
  intros s1. subst s1.
  assert (cached_token t (clearToken s).2 = None) as Hc by done.
  unfold getAccessToken, bind. rewrite (getAccessToken_start_miss _ _ Hc).
  change (auth_calls s) with (auth_calls (clearToken s).2).
  rewrite <- auth_calls_emit_auth.
  destruct reply as [td|]; by svc_unfold.
Qed.

(** ** The Notifier and the wire *)

(** X10.  After a failed authentication [sendPaymentUpdate] posts no
    settlement update: when the cache misses and the token request
    fails, the only request that went out is the token request, and the
    caller sees the Notifier's own message, not the authentication
    error.  The token itself is not looked at: with a token reply, the
    empty string as [access_token] included, the update is posted right
    after the token request. *)
Theorem sendPaymentUpdate_no_post_after_failed_authentication rt payload env s :
  cached_token (at_token env) s = None →
  (auth_reply env = None →
   sendPaymentUpdate rt payload env s
     = (Throw "Failed to notify ASPIn of payment status", emit EvAuthPost s)
   ∧ (∀ q accepted,
        EvPaymentPost q accepted
          ∉ new_events s (sendPaymentUpdate rt payload env s).2))
  ∧ (∀ tokenData, auth_reply env = Some tokenData →
     new_events s (sendPaymentUpdate rt payload env s).2
       = [EvAuthPost; EvPaymentPost payload (post_accepted env)]).
Proof.
  intros Hc. split.
  - intros Hreply.
    assert (sendPaymentUpdate rt payload env s
            = (Throw "Failed to notify ASPIn of payment status", emit EvAuthPost s))
      as ->.
    { unfold sendPaymentUpdate, rethrow_as, bind at 1.
      by rewrite Hreply, (getAccessToken_miss_fail rt _ _ _ Hc). }
    split; [done|]. intros q accepted. simpl.
    rewrite (new_events_app s _ [EvAuthPost]) by done. not_in_list.
  - intros tokenData Hreply.
    apply new_events_app.
    unfold sendPaymentUpdate, rethrow_as, bind at 1.
    unfold getAccessToken, bind at 1.
    rewrite Hreply, (getAccessToken_start_miss _ _ Hc).
    svc_unfold. simpl. destruct (post_accepted env); simpl;
      by rewrite <- app_assoc.
Qed.

Lemma sendPaymentUpdate_no_post_after_failed_authentication_witness :
  let env := {| at_token := 5000; auth_reply := None; at_auth := 5001;
                post_accepted := true |} in
  cached_token (at_token env) initial_state = None ∧ auth_reply env = None
  ∧ sendPaymentUpdate Scenario.rt Scenario.payload env initial_state
    = (Throw "Failed to notify ASPIn of payment status", emit EvAuthPost initial_state).
Proof.
  intros env.
  assert (cached_token (at_token env) initial_state = None) as H1 by reflexivity.
  assert (auth_reply env = None) as H2 by reflexivity.
  split; [exact H1|]. split; [exact H2|].
  exact (proj1 (proj1 (sendPaymentUpdate_no_post_after_failed_authentication
                         Scenario.rt Scenario.payload env initial_state H1) H2)).
Defined.

(** X11.  A payload the schema rejects never reaches the wire: for an
    amount that is not positive or whose hundredfold is above the
    largest safe integer (or a policy id or date the schema refuses)
    [notifyPaymentSuccess] and [notifyPaymentFailure] throw before
    asking for a token, send nothing, and leave the credential as it
    was. *)
Theorem notify_rejected_payload_sends_nothing rt guid amount' ref eff env s :
  amount' ≤ 0 ∨ MAX_SAFE_INTEGER < amount' * 100
  ∨ is_uuid rt guid = false ∨ is_date rt eff = false →
  let ok := notifyPaymentSuccess rt guid amount' ref eff env s in
  let ko := notifyPaymentFailure rt guid amount' ref eff env s in
  (∃ e p, ok = (Throw e, emit (EvNotify p) s) ∧ status p = Succeeded)
  ∧ (∃ e p, ko = (Throw e, emit (EvNotify p) s) ∧ status p = Failed)
  ∧ auth_calls ok.2 = auth_calls s ∧ auth_calls ko.2 = auth_calls s.
Proof.
  intros Hbad ok ko. subst ok ko.
  assert (∀ st, AspinPaymentUpdateSchema_ok rt
            {| policy_guid := guid; amount_in_cents := amount' * 100;
               mno_reference := ref; status := st; channel := "ApiClient";
               effected_at := eff |} = false) as Hschema.
  { intros st. unfold AspinPaymentUpdateSchema_ok, positive_int.
    cbn [policy_guid amount_in_cents effected_at].
    destruct Hbad as [Hle | [Hbig | [-> | ->]]].
    - rewrite (proj2 (Z.ltb_ge 0 (amount' * 100))) by lia.
      by rewrite andb_false_r.
    - rewrite (proj2 (Z.leb_gt (amount' * 100) MAX_SAFE_INTEGER)) by lia.
      by rewrite !andb_false_r.
    - done.
    - by rewrite andb_false_r. }
  assert (∀ p, auth_calls (emit (EvNotify p) s) = auth_calls s) as Hcalls.
  { intros p. unfold auth_calls. simpl. rewrite omap_app, length_app. simpl. lia. }
  unfold notifyPaymentSuccess, notifyPaymentFailure, AspinPaymentUpdateSchema_parse,
    bind, modify, throw.
  rewrite !Hschema. simpl. split_and!; eauto.
Qed.

Lemma notify_rejected_payload_sends_nothing_witness :
  let env := {| at_token := 5000; auth_reply := Some Scenario.token; at_auth := 5001;
                post_accepted := true |} in
  (0 ≤ 0 ∨ MAX_SAFE_INTEGER < 0 * 100
   ∨ is_uuid Scenario.rt "123e4567-e89b-12d3-a456-426614174000" = false
   ∨ is_date Scenario.rt "2026-02-15" = false)
  ∧ auth_calls (notifyPaymentSuccess Scenario.rt "123e4567-e89b-12d3-a456-426614174000"
                  0 "MNO_REF_123" "2026-02-15" env initial_state).2
    = auth_calls initial_state.
Proof.
  intros env.
  assert (0 ≤ 0 ∨ MAX_SAFE_INTEGER < 0 * 100
          ∨ is_uuid Scenario.rt "123e4567-e89b-12d3-a456-426614174000" = false
          ∨ is_date Scenario.rt "2026-02-15" = false) as Hbad.
  { left. vm_compute. discriminate. }
  split; [exact Hbad|].
  destruct (notify_rejected_payload_sends_nothing Scenario.rt
              "123e4567-e89b-12d3-a456-426614174000" 0 "MNO_REF_123"
              "2026-02-15" env initial_state Hbad) as (_ & _ & Hok & _).
  exact Hok.
Defined.




(** ** The Gateway Router, prefix by prefix *)

(** X13.  Routing by prefix: every number that does not start with 00254
    goes to Airtel; a number that starts with 00254 goes to Airtel
    exactly when its next two characters are 73, 74, 75 or 77 and to
    M-Pesa otherwise (a number too short to have them included); and
    the two prefix patterns of the source never match the same number,
    so the order of the two tests does not matter. *)
Theorem determineGateway_by_prefix :
  (∀ m, startsWith "00254" m = false → determineGateway m = AIRTEL)
  ∧ (∀ c5 c6 rest,
       determineGateway ("00254" ++ String c5 (String c6 rest))
       = if Ascii.eqb c5 "7" && (char_between "3" "5" c6 || Ascii.eqb c6 "7")
         then AIRTEL else MPESA)
  ∧ (∀ m, startsWith "00254" m = true → (String.length m < 7)%nat →
       determineGateway m = MPESA)
  ∧ (∀ m, mpesa_prefix m && airtel_prefix m = false).
Proof.
  split_and!.
  - intros m Hm. rewrite determineGateway_cases. by rewrite Hm.
  - intros c5 c6 rest. unfold determineGateway, mpesa_prefix, airtel_prefix. simpl.
    destruct (Ascii.eqb c5 "7"); [|done]. simpl.
    destruct c6 as [[] [] [] [] [] [] [] []]; reflexivity.
  - intros m Hm Hlen. unfold determineGateway, mpesa_prefix, airtel_prefix.
    rewrite Hm.
    assert (String.get 6 m = None) as ->.
    { destruct m as [|? [|? [|? [|? [|? [|? [|? ?]]]]]]]; simpl in *; try done; lia. }
    by destruct (String.get 5 m).
  - intros m. unfold mpesa_prefix, airtel_prefix.
    destruct (startsWith "00254" m); [|done]. simpl.
    destruct (String.get 5 m) as [c5|]; [|done].
    destruct (String.get 6 m) as [c6|]; [|done].
    destruct (Ascii.eqb c5 "7"); [|done]. simpl.
    destruct c6 as [[] [] [] [] [] [] [] []]; reflexivity.
Qed.

Lemma determineGateway_by_prefix_witness :
  startsWith "00254" "00256701234567" = false
  ∧ determineGateway "00256701234567" = AIRTEL
  ∧ startsWith "00254" "002547" = true ∧ (String.length "002547" < 7)%nat
  ∧ determineGateway "002547" = MPESA.
Proof.
  destruct determineGateway_by_prefix as (Hforeign & _ & Hshort & _).
  assert ((String.length "002547" < 7)%nat) as Hlen by (simpl; lia).
  split; [reflexivity|]. split; [exact (Hforeign "00256701234567" eq_refl)|].
  split; [reflexivity|]. split; [exact Hlen|].
  exact (Hshort "002547" eq_refl Hlen).
Defined.

(** ** Initiation, failure and frame *)

Lemma timeout_iff (r : Q) :
  negb (Qle_bool timeout_threshold r) = true ↔ (r < timeout_threshold)%Q.
Proof.
  rewrite negb_true_iff. split.
  - intros H. apply Qnot_le_lt. intros Hle.
    apply Qle_bool_iff in Hle. congruence.
  - intros Hlt. destruct (Qle_bool timeout_threshold r) eqn:H; [|done].
    apply Qle_bool_iff in H. by apply Qlt_not_le in Hlt.
Qed.

(** X14.  An initiation that passes the amount check fails exactly when
    the gateway times out, that is when the random draw is below the
    threshold.  It then throws the gateway's message, which the error
    handler does not treat as a client error, and the record it had
    already stored stays in the registry: pending, with the amount and
    the channel of the request and no gateway reference. *)
Theorem initiatePayment_timeout_leaves_record request env s :
  req_currency request ≠ KES ∨ req_amount request = 5000 →
  let run := initiatePayment request env s in
  ((rand env < timeout_threshold)%Q ↔ run.1 = Throw "PaymentHub timeout")
  ∧ ((timeout_threshold <= rand env)%Q ↔ is_ok run.1 = true)
  ∧ isOperational "PaymentHub timeout" = false
  ∧ (run.1 = Throw "PaymentHub timeout" →
     ∃ t, getTransaction (new_transaction_id env) run.2 = Some t
       ∧ tx_status t = pending ∧ gatewayReference t = None
       ∧ amount t = req_amount request ∧ currency t = req_currency request
       ∧ gateway t = determineGateway (req_msisdn request)).
Proof.
  intros Hamount run. subst run.
  assert (bool_decide (req_currency request = KES) && negb (req_amount request =? 5000)
          = false) as Hcheck.
  { destruct Hamount as [Hc | Ha].
    - by rewrite bool_decide_eq_false_2.
    - by rewrite (proj2 (Z.eqb_eq _ _) Ha), andb_false_r. }
  unfold initiatePayment, getTransaction. rewrite Hcheck. svc_unfold. simpl.
  pose proof (timeout_iff (rand env)) as Hiff.
  destruct (negb (Qle_bool timeout_threshold (rand env))) eqn:Hto.
  - assert ((rand env < timeout_threshold)%Q) as Hlt by by apply Hiff.
    destruct (determineGateway (req_msisdn request)) eqn:Hg; simpl;
      (split_and!;
       [ split; done
       | split; [intros Hle; by apply Qlt_not_le in Hlt | done]
       | done
       | intros _; eexists; split; [apply lookup_insert_eq|]; by rewrite ?Hg ]).
  - assert ((timeout_threshold <= rand env)%Q) as Hle.
    { apply Qnot_lt_le. intros Hlt. apply Hiff in Hlt. congruence. }
    destruct (determineGateway (req_msisdn request)) eqn:Hg; simpl;
      (split_and!;
       [ split; [intros Hlt; by apply Qlt_not_le in Hlt | done]
       | split; done
       | done
       | done ]).
Qed.

Lemma initiatePayment_timeout_leaves_record_witness :
  let slow := {| uuid_tx := uuid_tx Scenario.ienv; at_created := 1000;
                 at_created_upd := 1000; rand := 1 # 100;
                 uuid_gw := uuid_gw Scenario.ienv; date_now := 1200;
                 at_updated := 1201 |} in
  let run := initiatePayment Scenario.request slow initial_state in
  (req_currency Scenario.request ≠ KES ∨ req_amount Scenario.request = 5000)
  ∧ run.1 = Throw "PaymentHub timeout"
  ∧ ∃ t, getTransaction Scenario.txn run.2 = Some t
      ∧ tx_status t = pending ∧ gatewayReference t = None.
Proof.
  intros slow run.
  assert (req_currency Scenario.request ≠ KES ∨ req_amount Scenario.request = 5000)
    as Hamount by (right; reflexivity).
  destruct (initiatePayment_timeout_leaves_record Scenario.request slow
              initial_state Hamount) as (_ & _ & _ & Hrec).
  split; [exact Hamount|]. split; [reflexivity|].
  destruct (Hrec eq_refl) as (t & Ht & Hst & Href & _).
  exists t. split; [exact Ht|]. split; [exact Hst|exact Href].
Defined.

(** X15.  An initiation touches nothing but the record under its new id:
    the ledger, the credential, the trace and every other record are as
    before.  Under its new id it writes unconditionally once the amount
    check has passed, so a record that was already stored under that id
    is replaced by the new pending one. *)
Theorem initiatePayment_frame request env s :
  let s' := (initiatePayment request env s).2 in
  store s' = store s ∧ events s' = events s
  ∧ accessToken s' = accessToken s ∧ tokenExpiry s' = tokenExpiry s
  ∧ (∀ id, id ≠ new_transaction_id env → transactions s' !! id = transactions s !! id)
  ∧ (req_currency request ≠ KES ∨ req_amount request = 5000 →
     ∃ t, transactions s' !! new_transaction_id env = Some t
       ∧ tx_status t = pending ∧ createdAt t = at_created env
       ∧ policyGuid t = req_policy_guid request ∧ amount t = req_amount request).
Proof.
  intros s'. subst s'.
  split_and!.
  - apply initiatePayment_store.
  - unfold initiatePayment. destruct (bool_decide _ && negb _); [done|].
    svc_unfold. simpl.
    by destruct (determineGateway (req_msisdn request)); simpl;
      destruct (negb (Qle_bool timeout_threshold (rand env))).
  - unfold initiatePayment. destruct (bool_decide _ && negb _); [done|].
    svc_unfold. simpl.
    by destruct (determineGateway (req_msisdn request)); simpl;
      destruct (negb (Qle_bool timeout_threshold (rand env))).
  - unfold initiatePayment. destruct (bool_decide _ && negb _); [done|].
    svc_unfold. simpl.
    by destruct (determineGateway (req_msisdn request)); simpl;
      destruct (negb (Qle_bool timeout_threshold (rand env))).
  - intros id Hid. by apply initiatePayment_other.
  - intros Hamount.
    assert (bool_decide (req_currency request = KES)
            && negb (req_amount request =? 5000) = false) as Hcheck.
    { destruct Hamount as [Hc | Ha].
      - by rewrite bool_decide_eq_false_2.
      - by rewrite (proj2 (Z.eqb_eq _ _) Ha), andb_false_r. }
    unfold initiatePayment. rewrite Hcheck. svc_unfold. simpl.
    destruct (determineGateway (req_msisdn request)); simpl;
      destruct (negb (Qle_bool timeout_threshold (rand env))); simpl;
      eexists; (split; [apply lookup_insert_eq|]); done.
Qed.

Lemma initiatePayment_frame_witness :
  let s' := (initiatePayment Scenario.request Scenario.ienv Scenario.settled).2 in
  (req_currency Scenario.request ≠ KES ∨ req_amount Scenario.request = 5000)
  ∧ new_transaction_id Scenario.ienv = Scenario.txn
  ∧ tx_status <$> (transactions Scenario.settled !! Scenario.txn) = Some completed
  ∧ ∃ t, transactions s' !! Scenario.txn = Some t ∧ tx_status t = pending.
Proof.
  intros s'.
  assert (req_currency Scenario.request ≠ KES ∨ req_amount Scenario.request = 5000)
    as Hamount by (right; reflexivity).
  destruct (initiatePayment_frame Scenario.request Scenario.ienv Scenario.settled)
    as (_ & _ & _ & _ & _ & Hnew).
  destruct (Hnew Hamount) as (t & Ht & Hst & _).
  split; [exact Hamount|]. split; [reflexivity|]. split; [reflexivity|].
  exists t. split; [exact Ht|exact Hst].
Defined.

(** ** The webhook processor, further cases *)

(** X16.  A webhook for a transaction the registry does not know (and
    with no unexpired ledger record) is refused with the message
    Transaction not found followed by the id, which the error handler
    answers as a client error whatever the id; no record is invented,
    the Notifier is not invoked, nothing is sent, and the ledger loses
    at most an expired record of that id. *)
Theorem handleWebhook_unknown_transaction rt webhook env s path cid now :
  ledger_live (wh_transaction_id webhook) (at_check env) s = false →
  transactions s !! wh_transaction_id webhook = None →
  let run := handleWebhook rt webhook env s in
  let message := "Transaction not found: " ++ wh_transaction_id webhook in
  run.1 = Throw message
  ∧ isOperational message = true
  ∧ http_status (errorHandler message path cid now) = 400
  ∧ transactions run.2 = transactions s
  ∧ events run.2 = events s
  ∧ accessToken run.2 = accessToken s ∧ tokenExpiry run.2 = tokenExpiry s
  ∧ store run.2 = delete (wh_transaction_id webhook) (store s).
Proof.
  intros Hdead Htx run message. subst run message.
  rewrite (handleWebhook_unknown _ _ _ _ Hdead Htx). simpl.
  assert (isOperational ("Transaction not found: " ++ wh_transaction_id webhook) = true)
    as Hop.
  { unfold isOperational.
    assert (includes "not found"
              ("Transaction not found: " ++ wh_transaction_id webhook) = true) as ->
      by reflexivity.
    by rewrite orb_true_r. }
  split_and!; try done.
  unfold errorHandler. simpl. by rewrite Hop.
Qed.

Lemma handleWebhook_unknown_transaction_witness :
  let hook := {| wh_transaction_id := "TXN_UNKNOWN"; wh_status := wh_completed;
                 wh_amount := 5000; wh_currency := KES;
                 wh_timestamp := "2026-02-11T10:35:00Z"; wh_signature := None;
                 wh_policy_guid := None; wh_mno_reference := Some "MNO_REF_123" |} in
  let run := handleWebhook Scenario.rt hook (Scenario.wenv 2000 true) Scenario.initiated in
  ledger_live "TXN_UNKNOWN" 2000 Scenario.initiated = false
  ∧ transactions Scenario.initiated !! "TXN_UNKNOWN" = None
  ∧ run.1 = Throw "Transaction not found: TXN_UNKNOWN"
  ∧ transactions run.2 = transactions Scenario.initiated.
Proof.
  intros hook run. split; [reflexivity|]. split; [reflexivity|].
  destruct (handleWebhook_unknown_transaction Scenario.rt hook
              (Scenario.wenv 2000 true) Scenario.initiated "/api/payments/webhook"
              None 2000 eq_refl eq_refl) as (Hres & _ & _ & Htx & _).
  split; [exact Hres|exact Htx].
Defined.

(** X17.  A webhook delivery never adds a record to the registry and
    never removes one: the set of transaction ids is the same before and
    after, whatever the delivery and however it ends. *)
Theorem handleWebhook_keeps_transaction_ids rt webhook env s :
  dom (transactions (handleWebhook rt webhook env s).2) = dom (transactions s).
Proof.
  apply set_eq. intros id. rewrite !elem_of_dom.
  pose proof (handleWebhook_transactions rt webhook env s id) as H.
  destruct (transactions s !! id) as [t|].
  - destruct H as (t' & -> & _). split; eauto.
  - rewrite H. split; intros [? ?]; done.
Qed.

(** X18.  The delivery is processed on its transaction id, its status
    and its reference alone: the amount, the currency, the timestamp,
    the signature and the policy id it declares are never read, so two
    webhooks that differ only there have the same result and the same
    effect, even when the declared amount disagrees with the record. *)
Theorem handleWebhook_ignores_declared_amount rt webhook webhook' env s :
  wh_transaction_id webhook' = wh_transaction_id webhook →
  wh_status webhook' = wh_status webhook →
  wh_mno_reference webhook' = wh_mno_reference webhook →
  handleWebhook rt webhook' env s = handleWebhook rt webhook env s.
Proof.
  intros Hid Hst Href. unfold handleWebhook, notify_aspin.
  by rewrite Hid, Hst, Href.
Qed.

Lemma handleWebhook_ignores_declared_amount_witness :
  let other := {| wh_transaction_id := Scenario.txn; wh_status := wh_completed;
                  wh_amount := 1; wh_currency := UGX;
                  wh_timestamp := "1999-01-01T00:00:00Z";
                  wh_signature := Some "x"; wh_policy_guid := Some "y";
                  wh_mno_reference := None |} in
  wh_amount other ≠ 5000
  ∧ handleWebhook Scenario.rt other (Scenario.wenv 2000 true) Scenario.initiated
    = handleWebhook Scenario.rt (Scenario.webhook wh_completed)
        (Scenario.wenv 2000 true) Scenario.initiated.
Proof.
  intros other. split; [discriminate|].
  apply (handleWebhook_ignores_declared_amount Scenario.rt
           (Scenario.webhook wh_completed) other); reflexivity.
Defined.

(** X19.  The settlement update of a processed completed or failed
    delivery carries the policy id of the record, the fixed channel tag
    ApiClient, the date built from the local date of processing, and as
    reference the delivery's own reference when it has a non-empty one
    and the transaction id otherwise; the reference is therefore never
    empty unless the transaction id is. *)
Theorem handleWebhook_notified_reference rt webhook env s t0 :
  ledger_live (wh_transaction_id webhook) (at_check env) s = false →
  transactions s !! wh_transaction_id webhook = Some t0 →
  wh_status webhook ≠ wh_pending →
  ∃ p, notifier_invocations (handleWebhook rt webhook env s).2
       = (notifier_invocations s ++ [p])%list
    ∧ policy_guid p = policyGuid t0
    ∧ channel p = "ApiClient"
    ∧ effected_at p = effectedAt_of rt (at_effect env)
    ∧ mno_reference p
      = match wh_mno_reference webhook with
        | Some r => if truthy r then r else wh_transaction_id webhook
        | None => wh_transaction_id webhook
        end
    ∧ (truthy (wh_transaction_id webhook) = true → truthy (mno_reference p) = true).
Proof.
  intros Hdead Htx Hst.
  rewrite (handleWebhook_processed_invocations rt _ _ _ t0 Hdead Htx).
  assert (truthy (wh_transaction_id webhook) = true →
          truthy (or_else (wh_mno_reference webhook) (wh_transaction_id webhook)) = true)
    as Hne.
  { intros Hid. unfold or_else. destruct (wh_mno_reference webhook) as [r|]; [|done].
    by destruct (truthy r) eqn:Hr. }
  unfold notification_of.
  destruct (wh_status webhook); [| |done]; eexists; (split; [reflexivity|]);
    simpl; by split_and!.
Qed.

Lemma handleWebhook_notified_reference_witness :
  ledger_live Scenario.txn 2000 Scenario.initiated = false
  ∧ ∃ p, notifier_invocations Scenario.settled = [p]
      ∧ mno_reference p = Scenario.txn.
Proof.
  split; [reflexivity|].
  destruct (transactions Scenario.initiated !! Scenario.txn) as [t0|] eqn:Ht0;
    [|by vm_compute in Ht0].
  destruct (handleWebhook_notified_reference Scenario.rt
              (Scenario.webhook wh_completed) (Scenario.wenv 2000 true)
              Scenario.initiated t0 eq_refl Ht0)
    as (p & Hp & _ & _ & _ & Href & _); [discriminate|].
  exists p. split; [exact Hp|exact Href].
Defined.



(** The Notifier call of a delivery fails with the Notifier's message
    alone when its payload passes the schema. *)
Lemma notify_aspin_throw_message rt webhook t now env s e s' :
  (∀ p, notification_of rt webhook t now = Some p →
        AspinPaymentUpdateSchema_ok rt p = true) →
  notify_aspin rt webhook t
    (or_else (wh_mno_reference webhook) (wh_transaction_id webhook))
    (effectedAt_of rt now) env s = (Throw e, s') →
  e = "Failed to notify ASPIn of payment status".
Proof.
  unfold notify_aspin, notification_of. intros Hok.
  destruct (wh_status webhook); [| |done].
  all: specialize (Hok _ eq_refl);
    unfold notifyPaymentSuccess, notifyPaymentFailure,
      AspinPaymentUpdateSchema_parse, bind at 1 2, modify at 1;
    rewrite Hok; unfold ret at 1;
    match goal with
    | |- context [sendPaymentUpdate ?r ?p ?env ?st] =>
        destruct (sendPaymentUpdate r p env st) as [r1 s1] eqn:Hsend
    end;
    intros [= -> ->];
    by destruct (sendPaymentUpdate_spec _ _ _ _ _ _ Hsend)
      as (_ & _ & δ & _ & _ & _ & Hthrow); destruct (Hthrow e eq_refl).
Qed.

(** X21.  For a known transaction whose settlement update passes the
    schema, the only error a delivery can end with is the Notifier's
    own message, whatever went wrong underneath (no token, no network,
    a refused post); the error handler answers it with status 500 and
    the fixed text, so nothing of the failure reaches the deliverer. *)
Theorem handleWebhook_failure_is_opaque rt webhook env s t0 e s' path cid now :
  transactions s !! wh_transaction_id webhook = Some t0 →
  (∀ p, notification_of rt webhook t0 (at_effect env) = Some p →
        AspinPaymentUpdateSchema_ok rt p = true) →
  handleWebhook rt webhook env s = (Throw e, s') →
  e = "Failed to notify ASPIn of payment status"
  ∧ http_status (errorHandler e path cid now) = 500
  ∧ json_field "message" (json_field "error" (http_body (errorHandler e path cid now)))
    = JStr "An unexpected error occurred".
Proof.
  intros Htx Hok Hrun.
  assert (e = "Failed to notify ASPIn of payment status") as ->; [|done].
  destruct (ledger_live (wh_transaction_id webhook) (at_check env) s) eqn:Hlive.
  { by rewrite (handleWebhook_live _ _ _ _ Hlive) in Hrun. }
  revert Hrun. unfold handleWebhook, bind at 1.
  rewrite (idempotency_get_dead _ _ _ Hlive).
  unfold bind at 1, get_state at 1. simpl. rewrite Htx.
  unfold bind at 1, transactions_set, bind at 1, get_state, modify. simpl.
  unfold bind at 1.
  destruct (notify_aspin rt webhook _ _ _ (notify_env env) _) as [[[]|e1] s3] eqn:Hn.
  - unfold idempotency_set, bind, get_state, modify. simpl. done.
  - intros [= <- <-]. by eapply notify_aspin_throw_message.
Qed.

Lemma handleWebhook_failure_is_opaque_witness :
  let run := handleWebhook Scenario.rt (Scenario.webhook wh_failed)
               (Scenario.wenv 2000 false) Scenario.initiated in
  (∃ e, run.1 = Throw e
        ∧ http_status (errorHandler e "/api/payments/webhook" None 2010) = 500).
Proof.
  intros run.
  destruct (transactions Scenario.initiated !! Scenario.txn) as [t0|] eqn:Ht0;
    [|by vm_compute in Ht0].
  assert (run = (Throw "Failed to notify ASPIn of payment status", run.2)) as Hrun
    by reflexivity.
  destruct (handleWebhook_failure_is_opaque Scenario.rt (Scenario.webhook wh_failed)
              (Scenario.wenv 2000 false) Scenario.initiated t0
              "Failed to notify ASPIn of payment status" run.2
              "/api/payments/webhook" None 2010 Ht0) as (_ & H500 & _).
  - vm_compute in Ht0. injection Ht0 as <-. intros p [= <-]. reflexivity.
  - exact Hrun.
  - exists "Failed to notify ASPIn of payment status". split; [reflexivity|exact H500].
Defined.

(** ** The controller *)

(** The record a successful initiation stores carries its own id. *)
Lemma initiatePayment_ok_record request env s tid st s' :
  initiatePayment request env s = (Ok (tid, st), s') →
  ∃ t, transactions s' !! tid = Some t
    ∧ transactionId t = tid ∧ policyGuid t = req_policy_guid request
    ∧ tx_status t = pending
    ∧ amount t = req_amount request ∧ currency t = req_currency request
    ∧ gateway t = determineGateway (req_msisdn request).
Proof.
  unfold initiatePayment.
  destruct (bool_decide _ && negb _); [done|].
  svc_unfold. simpl.
  destruct (determineGateway (req_msisdn request)) eqn:Hg; simpl;
    destruct (negb (Qle_bool timeout_threshold (rand env))); simpl; try done;
    intros [= <- <- <-]; simpl;
    eexists; (split; [apply lookup_insert_eq|]); simpl; by split_and!.
Qed.

(** X22.  Initiate, then ask.  When the controller answers an initiation
    with 202, the body names the new transaction id and links to its
    status route, and a status query for that id answers 200 with the
    same id, the status pending, the amount and the currency of the
    request (a positive amount, since the body passed the schema) and
    the channel the router chose. *)
Theorem initiate_then_status_query rt body env now now' s r s' :
  controller_initiatePayment rt body env now s = (Ok r, s') →
  let id := new_transaction_id env in
  let q := getPaymentStatus (ParamString id) now' s' in
  http_status r = 202
  ∧ json_field "transaction_id" (http_body r) = JStr id
  ∧ json_field "self" (json_field "_links" (http_body r)) = JStr ("/api/payments/" ++ id)
  ∧ http_status q = 200
  ∧ json_field "transaction_id" (http_body q) = JStr id
  ∧ json_field "status" (http_body q) = JStr "pending"
  ∧ json_field "amount" (http_body q) = JNum (req_amount body)
  ∧ json_field "currency" (http_body q) = JStr (currency_string (req_currency body))
  ∧ json_field "gateway" (http_body q)
    = JStr (gateway_string (determineGateway (req_msisdn body)))
  ∧ 0 < req_amount body.
Proof.
  unfold controller_initiatePayment.
  destruct (InitiatePaymentRequestSchema_ok rt body) eqn:Hschema; [|done].
  unfold bind, ret.
  destruct (initiatePayment body env s) as [[[tid st]|e] s1] eqn:Hrun; [|done].
  intros [= <- <-].
  pose proof (initiatePayment_ok _ _ _ _ _ _ Hrun) as (-> & -> & _).
  apply initiatePayment_ok_record in Hrun
    as (t & Htx & Hid & _ & Hst & Ham & Hcu & Hgw).
  assert (0 < req_amount body) as Hpos.
  { unfold InitiatePaymentRequestSchema_ok in Hschema.
    apply andb_true_iff in Hschema as [Hschema _].
    apply andb_true_iff in Hschema as [_ Hpos].
    unfold positive_int in Hpos. apply andb_true_iff in Hpos as [Hpos _].
    by apply Z.ltb_lt. }
  unfold getPaymentStatus, getTransaction. simpl.
  rewrite Htx. simpl. rewrite Hid, Hst, Ham, Hcu, Hgw.
  by split_and!.
Qed.

Lemma initiate_then_status_query_witness :
  let run := controller_initiatePayment Scenario.rt Scenario.request Scenario.ienv
               1300 initial_state in
  (∃ r, run = (Ok r, Scenario.initiated) ∧ http_status r = 202)
  ∧ http_status (getPaymentStatus (ParamString Scenario.txn) 1400 Scenario.initiated)
    = 200.
Proof.
  intros run.
  destruct run as [[r|e] s'] eqn:Hrun; [|by vm_compute in Hrun].
  assert (s' = Scenario.initiated) as ->.
  { vm_compute in Hrun. injection Hrun as _ <-. by vm_compute. }
  destruct (initiate_then_status_query Scenario.rt Scenario.request Scenario.ienv
              1300 1400 initial_state r Scenario.initiated Hrun)
    as (H202 & _ & _ & H200 & _).
  split; [by exists r|exact H200].
Defined.



(** ** The API key *)

Lemma split_space_no_space s : no_space s = true → split_space s = [s].
Proof.
  unfold no_space. induction s as [|c rest IH]; simpl; [done|].
  intros H. apply andb_true_iff in H as [Hc Hrest].
  apply negb_true_iff in Hc. rewrite Hc. by rewrite (IH Hrest).
Qed.

Lemma split_space_app a b :
  no_space a = true → split_space (a ++ String " " b) = a :: split_space b.
Proof.
  unfold no_space. induction a as [|c rest IH]; simpl; [done|].
  intros H. apply andb_true_iff in H as [Hc Hrest].
  apply negb_true_iff in Hc. rewrite Hc. by rewrite (IH Hrest).
Qed.

(** X24.  The API key check lets a request through exactly when the key
    it presents is the configured one and is not empty, and otherwise
    answers 401.  A non-empty [x-api-key] header is the key presented,
    whatever [Authorization] says, so a wrong one is refused even beside
    a right bearer token.  Without it, the key is the second word of
    [Authorization], whatever the first word is: any scheme followed by
    the configured key is let through. *)
Theorem authenticateApiKey_accepts_exactly api_key headers now :
  (authenticateApiKey api_key headers now = Next tt
   ↔ request_api_key headers = Some api_key ∧ truthy api_key = true)
  ∧ (∀ r, authenticateApiKey api_key headers now = Respond r → http_status r = 401)
  ∧ (∀ k, headers !! "x-api-key" = Some k → truthy k = true →
       (authenticateApiKey api_key headers now = Next tt ↔ k = api_key))
  ∧ (∀ scheme k, present (headers !! "x-api-key") = false →
       headers !! "authorization" = Some (scheme ++ String " " k) →
       no_space scheme = true → no_space k = true →
       (authenticateApiKey api_key headers now = Next tt
        ↔ k = api_key ∧ truthy k = true)).
Proof.
  assert (authenticateApiKey api_key headers now = Next tt
          ↔ request_api_key headers = Some api_key ∧ truthy api_key = true) as Hmain.
  { unfold authenticateApiKey.
    destruct (request_api_key headers) as [k|] eqn:Hk; simpl.
    - destruct (truthy k) eqn:Htk; simpl.
      + destruct (decide (Some k = Some api_key)) as [[= ->]|Hne].
        * rewrite bool_decide_eq_true_2 by done. simpl. split; [done|done].
        * rewrite bool_decide_eq_false_2 by done. simpl.
          split; [done|]. intros [? _]. done.
      + split; [done|]. intros [[= ->] ?]. congruence.
    - split; [done|]. by intros [? _]. }
  split_and!.
  - exact Hmain.
  - intros r. unfold authenticateApiKey.
    destruct (negb (present (request_api_key headers))); [by intros [= <-]|].
    destruct (negb (bool_decide _)); [by intros [= <-]|done].
  - intros k Hk Htk. rewrite Hmain. unfold request_api_key, present.
    rewrite Hk, Htk. split.
    + by intros [[= ->] _].
    + intros ->. done.
  - intros scheme k Hx Hauth Hs Hk. rewrite Hmain. unfold request_api_key.
    rewrite Hx, Hauth, (split_space_app _ _ Hs), (split_space_no_space _ Hk). simpl.
    split.
    + by intros [[= ->] ?].
    + by intros [-> ?].
Qed.

Lemma authenticateApiKey_accepts_exactly_witness :
  let both : gmap string string :=
    <["x-api-key" := "wrong-key"]>
      (<["authorization" := "Bearer test_api_key_123"]> ∅) in
  let bearer : gmap string string :=
    <["authorization" := "Basic test_api_key_123"]> ∅ in
  both !! "x-api-key" = Some "wrong-key" ∧ truthy "wrong-key" = true
  ∧ authenticateApiKey "test_api_key_123" both 1000 ≠ Next tt
  ∧ present (bearer !! "x-api-key") = false
  ∧ authenticateApiKey "test_api_key_123" bearer 1000 = Next tt.
Proof.
  intros both bearer.
  destruct (authenticateApiKey_accepts_exactly "test_api_key_123" both 1000)
    as (_ & _ & Hx & _).
  destruct (authenticateApiKey_accepts_exactly "test_api_key_123" bearer 1000)
    as (_ & _ & _ & Hb).
  split; [reflexivity|]. split; [reflexivity|].
  split.
  { intros Hnext. apply (Hx "wrong-key") in Hnext; [discriminate|reflexivity..]. }
  split; [reflexivity|].
  apply (Hb "Basic" "test_api_key_123"); [reflexivity..|]. by split.
Defined.

(** ** The date of the settlement update *)

Lemma forallb_range (P : Z → bool) (lo : Z) (n : nat) :
  forallb P (map (λ i, lo + Z.of_nat i) (seq 0 n)) = true →
  ∀ z, lo ≤ z < lo + Z.of_nat n → P z = true.
Proof.
  intros H z Hz. rewrite forallb_forall in H. apply H.
  apply in_map_iff. exists (Z.to_nat (z - lo)). split; [lia|].
  apply in_seq. lia.
Qed.

Lemma year_four_digits y : 1000 ≤ y ≤ 9999 → digits 4 (string_of_Z y) = true.
Proof.
  intros Hy. apply (forallb_range (λ z, digits 4 (string_of_Z z)) 1000 (Z.to_nat 9000));
    [by vm_compute|lia].
Qed.

Lemma padStart2_two_digits n : 0 ≤ n ≤ 99 → digits 2 (padStart2 (string_of_Z n)) = true.
Proof.
  intros Hn. apply (forallb_range (λ z, digits 2 (padStart2 (string_of_Z z))) 0 100);
    [by vm_compute|lia].
Qed.

Lemma ymd_of_parts y m d :
  digits 4 y = true → digits 2 m = true → digits 2 d = true →
  is_ymd (y ++ "-" ++ m ++ "-" ++ d) = true.
Proof.
  unfold digits, is_ymd.
  destruct y as [|y1 [|y2 [|y3 [|y4 [|]]]]]; try done.
  destruct m as [|m1 [|m2 [|]]]; try done.
  destruct d as [|d1 [|d2 [|]]]; try done.
  simpl. intros Hy Hm Hd.
  repeat match goal with
         | H : _ && _ = true |- _ => apply andb_true_iff in H as [? ?]
         end.
  repeat match goal with
         | H : is_digit _ = true |- _ => rewrite H; clear H
         end.
  done.
Qed.

(** X25.  The effective date sent with a settlement update is a date
    without a time: whenever the local date of processing has a
    four-digit year (and a month and a day of the month, as every date
    has), the string is ten characters of the shape YYYY-MM-DD, month
    and day padded to two digits and the month counted from 1. *)
Theorem effectedAt_is_date_only rt now :
  1000 ≤ getFullYear rt now ≤ 9999 →
  0 ≤ getMonth rt now ≤ 11 →
  1 ≤ getDate rt now ≤ 31 →
  is_ymd (effectedAt_of rt now) = true
  ∧ String.length (effectedAt_of rt now) = 10%nat.
Proof.
  intros Hy Hm Hd.
  assert (is_ymd (effectedAt_of rt now) = true) as Hshape.
  { unfold effectedAt_of. apply ymd_of_parts.
    - by apply year_four_digits.
    - apply padStart2_two_digits. lia.
    - apply padStart2_two_digits. lia. }
  split; [done|].
  unfold is_ymd in Hshape.
  rewrite <- (string_of_list_ascii_of_string (effectedAt_of rt now)).
  destruct (list_ascii_of_string (effectedAt_of rt now))
    as [|? [|? [|? [|? [|? [|? [|? [|? [|? [|? [|]]]]]]]]]]]; done.
Qed.

Lemma effectedAt_is_date_only_witness :
  1000 ≤ getFullYear Scenario.rt 2001 ≤ 9999
  ∧ 0 ≤ getMonth Scenario.rt 2001 ≤ 11
  ∧ 1 ≤ getDate Scenario.rt 2001 ≤ 31
  ∧ is_ymd (effectedAt_of Scenario.rt 2001) = true.
Proof.
  assert (1000 ≤ getFullYear Scenario.rt 2001 ≤ 9999) as Hy by (simpl; lia).
  assert (0 ≤ getMonth Scenario.rt 2001 ≤ 11) as Hm by (simpl; lia).
  assert (1 ≤ getDate Scenario.rt 2001 ≤ 31) as Hd by (simpl; lia).
  split; [exact Hy|]. split; [exact Hm|]. split; [exact Hd|].
  exact (proj1 (effectedAt_is_date_only Scenario.rt 2001 Hy Hm Hd)).
Defined.

(** ** The validation middleware in front of the two POST routes *)

Lemma currency_enum_string c : currency_enum (JStr (currency_string c)) = true.
Proof. by destruct c. Qed.

Lemma optional_string_opt o : optional_string (json_opt_string o) = true.
Proof. by destruct o. Qed.

(** The JSON form of the schema and the check on a typed body agree. *)
Lemma request_json_accepted rt body :
  InitiatePaymentRequestSchema_accepts rt (request_json body)
  = InitiatePaymentRequestSchema_ok rt body.
Proof.
  unfold InitiatePaymentRequestSchema_accepts, InitiatePaymentRequestSchema_ok,
    request_json.
  cbn [json_field List.find fst snd String.eqb Ascii.eqb Bool.eqb].
  rewrite currency_enum_string, !optional_string_opt.
  destruct (req_metadata body); by rewrite !andb_true_r.
Qed.

(** X26.  The validation middleware hands each schema the wrapper
    object with the three keys body, query and params, while both
    schemas of the POST routes name the fields of the body itself;
    their first required field is therefore always missing.  So the
    middleware refuses every request with 400 VALIDATION_ERROR and never
    calls [next()], whatever the body, even a body the schema accepts
    when it is given the body alone. *)
Theorem validate_refuses_every_request
    rt is_datetime body query params issues path cid now :
  (∃ r, validate (InitiatePaymentRequestSchema_accepts rt)
          body query params issues path cid now = Respond r
        ∧ http_status r = 400
        ∧ json_field "code" (json_field "error" (http_body r)) = JStr "VALIDATION_ERROR")
  ∧ (∃ r, validate (PaymentHubWebhookSchema_accepts rt is_datetime)
            body query params issues path cid now = Respond r
          ∧ http_status r = 400
          ∧ json_field "code" (json_field "error" (http_body r)) = JStr "VALIDATION_ERROR")
  ∧ (∀ request, InitiatePaymentRequestSchema_ok rt request = true →
       InitiatePaymentRequestSchema_accepts rt (request_json request) = true
       ∧ validate (InitiatePaymentRequestSchema_accepts rt)
           (request_json request) query params issues path cid now ≠ Next tt).
Proof.
  split_and!.
  - eexists. by split_and!.
  - eexists. by split_and!.
  - intros request Hok. split; [by rewrite request_json_accepted|]. done.
Qed.

Lemma validate_refuses_every_request_witness :
  InitiatePaymentRequestSchema_ok Scenario.rt Scenario.request = true
  ∧ InitiatePaymentRequestSchema_accepts Scenario.rt (request_json Scenario.request)
    = true
  ∧ validate (InitiatePaymentRequestSchema_accepts Scenario.rt)
      (request_json Scenario.request) (JObj []) (JObj []) (JObj [])
      "/initiate" None 1000 ≠ Next tt.
Proof.
  assert (InitiatePaymentRequestSchema_ok Scenario.rt Scenario.request = true) as Hok
    by reflexivity.
  split; [exact Hok|].
  exact (proj2 (proj2 (validate_refuses_every_request Scenario.rt (λ _, true)
                         (request_json Scenario.request) (JObj []) (JObj []) (JObj [])
                         "/initiate" None 1000))
           Scenario.request Hok).
Defined.

(** ** Invariants of a run *)

Lemma initiatePayment_keeps_ids request env s id :
  is_Some (transactions s !! id) →
  is_Some (transactions (initiatePayment request env s).2 !! id).
Proof.
  intros Hid. destruct (decide (id = new_transaction_id env)) as [->|Hne].
  - unfold initiatePayment. destruct (bool_decide _ && negb _); [done|].
    svc_unfold. simpl.
    destruct (determineGateway (req_msisdn request)); simpl;
      destruct (negb (Qle_bool timeout_threshold (rand env))); simpl;
      rewrite lookup_insert_eq; eauto.
  - by rewrite initiatePayment_other.
Qed.

Lemma run_op_ledger_within_registry rt op s :
  (∀ k, is_Some (store s !! k) → is_Some (transactions s !! k)) →
  ∀ k, is_Some (store (run_op rt op s) !! k) →
       is_Some (transactions (run_op rt op s) !! k).
Proof.
  intros Hinv k. destruct op as [request env|webhook env|now|]; simpl.
  - rewrite initiatePayment_store. intros Hk.
    by apply initiatePayment_keeps_ids, Hinv.
  - intros Hk.
    assert (is_Some (transactions s !! k)) as Hknown.
    { destruct (decide (k = wh_transaction_id webhook)) as [->|Hne].
      - destruct (ledger_live (wh_transaction_id webhook) (at_check env) s) eqn:Hlive.
        + rewrite (handleWebhook_live _ _ _ _ Hlive) in Hk. by apply Hinv.
        + destruct (transactions s !! wh_transaction_id webhook) as [t0|] eqn:Htx;
            [eauto|].
          rewrite (handleWebhook_unknown _ _ _ _ Hlive Htx) in Hk. simpl in Hk.
          rewrite lookup_delete_eq in Hk. by destruct Hk.
      - rewrite handleWebhook_store_other in Hk by done. by apply Hinv. }
    pose proof (handleWebhook_transactions rt webhook env s k) as H.
    destruct (transactions s !! k) as [t|]; [|by destruct Hknown].
    destruct H as (t' & -> & _). eauto.
  - intros [record Hk]. apply map_lookup_filter_Some in Hk as [Hk _].
    apply Hinv. eauto.
  - apply Hinv.
Qed.

(** X27.  The ledger never holds a key the registry does not know: in
    every state the process can reach from its start, by initiations,
    webhook deliveries, cleanups and token resets in any order, each
    ledger record sits under the id of a stored transaction. *)
Theorem ledger_within_registry rt ops k :
  let s := run_ops rt ops initial_state in
  is_Some (store s !! k) → is_Some (transactions s !! k).
Proof.
  intros s. subst s. revert k.
  assert (∀ s0, (∀ k, is_Some (store s0 !! k) → is_Some (transactions s0 !! k)) →
                ∀ k, is_Some (store (run_ops rt ops s0) !! k) →
                     is_Some (transactions (run_ops rt ops s0) !! k)) as Hgen.
  { induction ops as [|op ops IH]; intros s0 Hinv; [done|].
    simpl. apply IH. by apply run_op_ledger_within_registry. }
  apply Hgen. intros k [r Hk]. done.
Qed.

Lemma ledger_within_registry_witness :
  let s := run_ops Scenario.rt
             [OpInitiate Scenario.request Scenario.ienv;
              OpWebhook (Scenario.webhook wh_completed) (Scenario.wenv 2000 true);
              OpCleanup 3600000; OpClearToken] initial_state in
  is_Some (store s !! Scenario.txn) ∧ is_Some (transactions s !! Scenario.txn).
Proof.
  intros s.
  assert (is_Some (store s !! Scenario.txn)) as Hk.
  { exists (ledger_record Scenario.rt (Scenario.webhook wh_completed)
              (Scenario.wenv 2000 true)). reflexivity. }
  split; [exact Hk|].
  exact (ledger_within_registry Scenario.rt _ Scenario.txn Hk).
Defined.

(** X28.  A stored record is never deleted, and of its fields only the
    status and the update time ever change: after any run of webhook
    deliveries, cleanups, token resets and initiations that draw other
    ids, the record is still there with the same transaction id, policy
    id, amount, currency, subscriber, channel, gateway reference,
    creation time and metadata. *)
Theorem record_identity_is_stable rt ops s id t :
  transactions s !! id = Some t → Forall (keeps_id id) ops →
  ∃ t', transactions (run_ops rt ops s) !! id = Some t'
    ∧ transactionId t' = transactionId t ∧ policyGuid t' = policyGuid t
    ∧ amount t' = amount t ∧ currency t' = currency t ∧ msisdn t' = msisdn t
    ∧ gateway t' = gateway t ∧ gatewayReference t' = gatewayReference t
    ∧ createdAt t' = createdAt t ∧ metadata t' = metadata t.
Proof.
  intros Hid Hops.
  destruct (run_ops_same_payment rt ops s id t Hid Hops) as (t' & Ht' & Hsame).
  exists t'. unfold same_payment in Hsame. destruct_and!. by split_and!.
Qed.

Lemma record_identity_is_stable_witness :
  let ops := [OpWebhook (Scenario.webhook wh_completed) (Scenario.wenv 2000 true);
              OpCleanup 3600000;
              OpWebhook (Scenario.webhook wh_failed)
                (Scenario.wenv (2005 + Scenario.day) true)] in
  Forall (keeps_id Scenario.txn) ops
  ∧ ∃ t t', transactions Scenario.initiated !! Scenario.txn = Some t
      ∧ transactions (run_ops Scenario.rt ops Scenario.initiated) !! Scenario.txn
        = Some t'
      ∧ gatewayReference t' = gatewayReference t ∧ createdAt t' = createdAt t.
Proof.
  intros ops.
  assert (Forall (keeps_id Scenario.txn) ops) as Hops by (repeat constructor).
  split; [exact Hops|].
  destruct (transactions Scenario.initiated !! Scenario.txn) as [t|] eqn:Ht;
    [|by vm_compute in Ht].
  destruct (record_identity_is_stable Scenario.rt ops Scenario.initiated
              Scenario.txn t Ht Hops)
    as (t' & Ht' & _ & _ & _ & _ & _ & _ & Href & Hcr & _).
  exists t, t'. by split_and!.
Defined.
